(** * stencil_code: the specializer's runtime and frontend, embedded in Rocq

    The development follows the three source files of the package:
    - [stencil_kernel.py]: [StencilFunction], [OclStencilFunction],
      [SpecializedStencil] and [StencilKernel];
    - [stencil_model.py]: the three stencil model node classes;
    - [stencil_python_frontend.py]: [PythonToStencilModel].

    Python integers are unbounded and are modelled by [Z]; tuples and lists
    of integers by [list Z]; strings by [string]. *)

From Stdlib Require Import ZArith List String Bool Lia Arith Sorted.
Import ListNotations.
Local Open Scope string_scope.
Local Open Scope Z_scope.
Local Open Scope list_scope.

(** ** Interior points: [StencilKernel.interior_points] *)

Module Interior.

(** Python's [range(a, b)]: the integers [a, a+1, ..., b-1], empty when
    [b <= a]. *)
Definition range (a b : Z) : list Z :=
  map (fun i => a + Z.of_nat i) (seq 0 (Z.to_nat (b - a))).

(** [itertools.product] applied to the pools, as the library documents it:
<<
    result = [[]]
    for pool in pools:
        result = [x+[y] for x in result for y in pool]
>>
    The accumulated prefixes are extended on the right, pool after pool. *)
Definition product_step (result : list (list Z)) (pool : list Z)
  : list (list Z) :=
  flat_map (fun x => map (fun y => x ++ [y]) pool) result.

Definition product (pools : list (list Z)) : list (list Z) :=
  fold_left product_step pools [[]].

(** [interior_points(self, x)]:
<<
    dims = (range(self.ghost_depth, dim - self.ghost_depth)
                for dim in x.shape)
    for item in itertools.product( *dims ):
        yield tuple(item)
>>
    The generator is finite; the list holds the tuples in the order they
    are yielded. *)
Definition interior_points (ghost_depth : Z) (shape : list Z)
  : list (list Z) :=
  product (map (fun dim => range ghost_depth (dim - ghost_depth)) shape).

(** The Cartesian product written as nested loops, the leftmost pool
    outermost: the reading of "product order" the claims refer to. *)
Fixpoint cartesian (pools : list (list Z)) : list (list Z) :=
  match pools with
  | [] => [[]]
  | pool :: rest =>
      flat_map (fun y => map (cons y) (cartesian rest)) pool
  end.

(** Strict lexicographic order on index tuples. *)
Inductive lex_lt : list Z -> list Z -> Prop :=
| lex_lt_head (a b : Z) (p q : list Z) : a < b -> lex_lt (a :: p) (b :: q)
| lex_lt_tail (a : Z) (p q : list Z) : lex_lt p q -> lex_lt (a :: p) (a :: q).

(** A list is strictly increasing for [lex_lt]: every element is below
    every later one. *)
Inductive lex_sorted : list (list Z) -> Prop :=
| lex_sorted_nil : lex_sorted []
| lex_sorted_cons (p : list Z) (l : list (list Z)) :
    Forall (lex_lt p) l -> lex_sorted l -> lex_sorted (p :: l).

(** An index lies in the interior when, along every dimension, it is at
    least [ghost_depth] away from both ends. *)
Definition interior (ghost_depth : Z) (p shape : list Z) : Prop :=
  Forall2 (fun i dim => ghost_depth <= i < dim - ghost_depth) p shape.

End Interior.

(** ** Python values, exceptions and the error monad *)

Module Py.

(** The exceptions the modelled code can raise.  [Exception] carries the
    message of a bare [raise Exception(msg)]. *)
Inductive exn : Type :=
| AttributeError (attr : string)
| IndexError
| KeyError (key : string)
| TypeError
| ValueError
| Exception (msg : string).

(** A computation either returns a value or raises. *)
Inductive res (A : Type) : Type :=
| Ok (a : A)
| Raise (e : exn).

Arguments Ok {A} a.
Arguments Raise {A} e.

Definition bind {A B : Type} (c : res A) (k : A -> res B) : res B :=
  match c with
  | Ok a => k a
  | Raise e => Raise e
  end.

Set Warnings "-register-all".

(** Dynamically typed values: the tree nodes the frontend rewrites and
    the attribute values they hold.  A node is its class name together
    with its instance attributes, in the order of the class's field
    list. *)
Inductive value : Type :=
| VNone
| VInt (z : Z)
| VStr (s : string)
| VList (items : list value)
| VNode (cls : string) (attrs : list (string * value)).

(** [type(v).__name__]. *)
Definition class_of (v : value) : string :=
  match v with
  | VNone => "NoneType"
  | VInt _ => "int"
  | VStr _ => "str"
  | VList _ => "list"
  | VNode cls _ => cls
  end.

Fixpoint assoc (name : string) (attrs : list (string * value))
  : option value :=
  match attrs with
  | [] => None
  | (k, v) :: rest => if String.eqb k name then Some v else assoc name rest
  end.

(** [v.name]: defined on nodes that carry the attribute. *)
Definition getattr (v : value) (name : string) : res value :=
  match v with
  | VNode _ attrs =>
      match assoc name attrs with
      | Some x => Ok x
      | None => Raise (AttributeError name)
      end
  | _ => Raise (AttributeError name)
  end.

(** [v[i]] for a list [v] and a non-negative index [i]. *)
Definition getitem (v : value) (i : nat) : res value :=
  match v with
  | VList items =>
      match nth_error items i with
      | Some x => Ok x
      | None => Raise IndexError
      end
  | _ => Raise TypeError
  end.

(** [a is 'literal'] on attribute names: identifiers of a parsed tree and
    identifier-like literals are interned, so identity is equality of the
    characters. *)
Definition is_str (v : value) (s : string) : bool :=
  match v with
  | VStr s' => String.eqb s' s
  | _ => false
  end.

End Py.

Declare Scope py_scope.
Delimit Scope py_scope with py.
Notation "x <- c ;; k" := (Py.bind c (fun x => k))
  (at level 61, c at next level, right associativity) : py_scope.

(** ** The stencil model: [stencil_model.py] *)

Module StencilModel.
Import Py.

(** The three node classes.  Each constructor stores its keyword
    arguments as instance attributes and nothing else; the classes
    inherit the field list [['base_node']] of [StencilModelNode], and no
    constructor sets [base_node]. *)
Definition InteriorPointsLoop (target body : value) : value :=
  VNode "InteriorPointsLoop" [("target", target); ("body", body)].

Definition NeighborPointsLoop
  (neighbor_id grid_name neighbor_target body : value) : value :=
  VNode "NeighborPointsLoop"
    [("neighbor_id", neighbor_id); ("grid_name", grid_name);
     ("neighbor_target", neighbor_target); ("body", body)].

Definition MathFunction (func args : value) : value :=
  VNode "MathFunction" [("func", func); ("args", args)].

Definition model_class (cls : string) : bool :=
  String.eqb cls "StencilModelNode" || String.eqb cls "InteriorPointsLoop"
  || String.eqb cls "NeighborPointsLoop" || String.eqb cls "MathFunction".

(** Whether attribute [name] of a node of class [cls] is listed in the
    class's [_fields], the attributes a generic traversal descends into:
    [base_node] alone for the model classes, every attribute for the
    node classes of the host syntax tree. *)
Definition is_field (cls name : string) : bool :=
  if model_class cls then String.eqb name "base_node" else true.

End StencilModel.

(** ** The frontend translator: [stencil_python_frontend.py] *)

Module Frontend.
Import Py StencilModel.
Local Open Scope py_scope.

Section PythonToStencilModel.

(** [str(x)] for a tree node [x] is whatever the node class prints (the
    code generator of the tree library); it is a parameter here.  On a
    string it is the string itself. *)
Variable node_str : value -> string.

Definition py_str (v : value) : string :=
  match v with
  | VStr s => s
  | _ => node_str v
  end.

(** What [visit_For] does once [node.body] holds the translated body:
<<
    if type(node.iter) is ast.Call and \
       type(node.iter.func) is ast.Attribute:
        if node.iter.func.attr is 'interior_points':
            return InteriorPointsLoop(target=node.target.id,
                                      body=node.body)
        elif node.iter.func.attr is 'neighbors':
            return NeighborPointsLoop(
                neighbor_id=node.iter.args[1].n,
                grid_name=node.iter.func.value.id,
                neighbor_target=node.target.id,
                body=node.body
            )
    return node
>>
    Keyword arguments are evaluated in the order they are written. *)
Definition For_rewrite (node : value) : res value :=
  iter <- getattr node "iter" ;;
  if String.eqb (class_of iter) "Call" then
    func <- getattr iter "func" ;;
    if String.eqb (class_of func) "Attribute" then
      attr <- getattr func "attr" ;;
      if is_str attr "interior_points" then
        target <- getattr node "target" ;;
        target_id <- getattr target "id" ;;
        body <- getattr node "body" ;;
        Ok (InteriorPointsLoop target_id body)
      else if is_str attr "neighbors" then
        args <- getattr iter "args" ;;
        level <- getitem args 1 ;;
        n <- getattr level "n" ;;
        grid <- getattr func "value" ;;
        grid_id <- getattr grid "id" ;;
        target <- getattr node "target" ;;
        target_id <- getattr target "id" ;;
        body <- getattr node "body" ;;
        Ok (NeighborPointsLoop n grid_id target_id body)
      else Ok node
    else Ok node
  else Ok node.

(** What [visit_FunctionCall] does once [node.args] holds the translated
    arguments:
<<
    if str(node.func) == 'distance' or str(node.func) == 'int':
        return MathFunction(func=node.func, args=node.args)
    return node
>> *)
Definition FunctionCall_rewrite (node : value) : res value :=
  func <- getattr node "func" ;;
  if String.eqb (py_str func) "distance" || String.eqb (py_str func) "int"
  then
    args <- getattr node "args" ;;
    Ok (MathFunction func args)
  else Ok node.

(** [NodeTransformer.visit]: dispatch on [visit_<class name>], with
    [generic_visit] as the default.  The class defines [visit_For] and
    [visit_FunctionCall].

    - [visit_items l] is [list(map(self.visit, l))];
    - [visit_list_attr name attrs] is the statement
      [node.name = list(map(self.visit, node.name))] on the attributes;
    - [generic_fields cls attrs] is [generic_visit]: each field that is a
      node is replaced by its translation, and in each field that is a
      list every node item is; other values stay.  [visit] never returns
      [None] or a list, so no item is dropped or spliced.

    Applied to a value that is no node, [visit] falls to [generic_visit],
    which reads [_fields] and fails. *)
Fixpoint visit (node : value) : res value :=
  match node with
  | VNode cls attrs =>
      let fix visit_items (l : list value) : res (list value) :=
        match l with
        | [] => Ok []
        | x :: rest =>
            x' <- visit x ;;
            rest' <- visit_items rest ;;
            Ok (x' :: rest')
        end in
      let fix generic_items (l : list value) : res (list value) :=
        match l with
        | [] => Ok []
        | x :: rest =>
            x' <- match x with
                  | VNode _ _ => visit x
                  | _ => Ok x
                  end ;;
            rest' <- generic_items rest ;;
            Ok (x' :: rest')
        end in
      let fix visit_list_attr (name : string) (l : list (string * value))
        : res (list (string * value)) :=
        match l with
        | [] => Raise (AttributeError name)
        | (k, v) :: rest =>
            if String.eqb k name then
              v' <- match v with
                    | VList items =>
                        items' <- visit_items items ;;
                        Ok (VList items')
                    | VStr "" => Ok (VList [])
                    | VStr _ => Raise (AttributeError "_fields")
                    | _ => Raise TypeError
                    end ;;
              Ok ((k, v') :: rest)
            else
              rest' <- visit_list_attr name rest ;;
              Ok ((k, v) :: rest')
        end in
      let fix generic_fields (l : list (string * value))
        : res (list (string * value)) :=
        match l with
        | [] => Ok []
        | (k, v) :: rest =>
            v' <- (if is_field cls k then
                     match v with
                     | VList items =>
                         items' <- generic_items items ;;
                         Ok (VList items')
                     | VNode _ _ => visit v
                     | _ => Ok v
                     end
                   else Ok v) ;;
            rest' <- generic_fields rest ;;
            Ok ((k, v') :: rest')
        end in
      if String.eqb cls "For" then
        attrs' <- visit_list_attr "body" attrs ;;
        For_rewrite (VNode cls attrs')
      else if String.eqb cls "FunctionCall" then
        attrs' <- visit_list_attr "args" attrs ;;
        FunctionCall_rewrite (VNode cls attrs')
      else
        attrs' <- generic_fields attrs ;;
        Ok (VNode cls attrs')
  | _ => Raise (AttributeError "_fields")
  end.

(** The loops of [visit], named, for the statements about it. *)

(** [list(map(self.visit, l))]. *)
Fixpoint visit_items (l : list value) : res (list value) :=
  match l with
  | [] => Ok []
  | x :: rest =>
      x' <- visit x ;;
      rest' <- visit_items rest ;;
      Ok (x' :: rest')
  end.

(** The list branch of [generic_visit]: node items are translated, other
    items kept. *)
Definition generic_item (x : value) : res value :=
  match x with
  | VNode _ _ => visit x
  | _ => Ok x
  end.

Fixpoint generic_items (l : list value) : res (list value) :=
  match l with
  | [] => Ok []
  | x :: rest =>
      x' <- generic_item x ;;
      rest' <- generic_items rest ;;
      Ok (x' :: rest')
  end.

(** [list(map(self.visit, v))] for an attribute value [v]. *)
Definition visit_iterable (v : value) : res value :=
  match v with
  | VList items =>
      items' <- visit_items items ;;
      Ok (VList items')
  | VStr "" => Ok (VList [])
  | VStr _ => Raise (AttributeError "_fields")
  | _ => Raise TypeError
  end.

(** [node.name = list(map(self.visit, node.name))] on the attributes. *)
Fixpoint visit_list_attr (name : string) (l : list (string * value))
  : res (list (string * value)) :=
  match l with
  | [] => Raise (AttributeError name)
  | (k, v) :: rest =>
      if String.eqb k name then
        v' <- visit_iterable v ;;
        Ok ((k, v') :: rest)
      else
        rest' <- visit_list_attr name rest ;;
        Ok ((k, v) :: rest')
  end.

(** One field under [generic_visit]. *)
Definition generic_child (cls k : string) (v : value) : res value :=
  if is_field cls k then
    match v with
    | VList items =>
        items' <- generic_items items ;;
        Ok (VList items')
    | VNode _ _ => visit v
    | _ => Ok v
    end
  else Ok v.

Definition generic_fields (cls : string)
  : list (string * value) -> res (list (string * value)) :=
  fix fields (l : list (string * value)) :=
    match l with
    | [] => Ok []
    | (k, v) :: rest =>
        v' <- generic_child cls k v ;;
        rest' <- fields rest ;;
        Ok ((k, v') :: rest')
    end.

(** [generic_visit(node)]: the node with the children under its fields
    translated in place. *)
Definition generic_visit (node : value) : res value :=
  match node with
  | VNode cls attrs =>
      attrs' <- generic_fields cls attrs ;;
      Ok (VNode cls attrs')
  | _ => Raise (AttributeError "_fields")
  end.

(** [visit_For(node)] and [visit_FunctionCall(node)]. *)
Definition visit_For (node : value) : res value :=
  match node with
  | VNode cls attrs =>
      attrs' <- visit_list_attr "body" attrs ;;
      For_rewrite (VNode cls attrs')
  | _ => Raise (AttributeError "body")
  end.

Definition visit_FunctionCall (node : value) : res value :=
  match node with
  | VNode cls attrs =>
      attrs' <- visit_list_attr "args" attrs ;;
      FunctionCall_rewrite (VNode cls attrs')
  | _ => Raise (AttributeError "args")
  end.

(** The test at the head of [visit_For] on the loop's iterable, when it
    is evaluated without error and fails: the iterable is no call, or a
    call of something that is no attribute, or a call through an
    attribute named neither [interior_points] nor [neighbors]. *)
Definition plain_iterable (iter : value) : bool :=
  match iter with
  | VNode cls attrs =>
      if String.eqb cls "Call" then
        match assoc "func" attrs with
        | Some (VNode fcls fattrs) =>
            if String.eqb fcls "Attribute" then
              match assoc "attr" fattrs with
              | Some attr => negb (is_str attr "interior_points")
                             && negb (is_str attr "neighbors")
              | None => false
              end
            else true
        | Some _ => true
        | None => false
        end
      else true
  | _ => true
  end.

(** The test of [visit_FunctionCall], on the callee. *)
Definition math_call (func : value) : bool :=
  String.eqb (py_str func) "distance" || String.eqb (py_str func) "int".

(** *** What it means for a node to come back with children translated *)

(** [x'] is what the traversal makes of the list item [x]: the
    translation of a node, the item itself otherwise. *)
Definition translated_item (x x' : value) : Prop :=
  match x with
  | VNode _ _ => visit x = Ok x'
  | _ => x' = x
  end.

(** [v'] is the attribute value [v] with its children translated. *)
Definition translated_child (v v' : value) : Prop :=
  match v with
  | VNode _ _ => visit v = Ok v'
  | VList items =>
      exists items', v' = VList items' /\ Forall2 translated_item items items'
  | _ => v' = v
  end.

(** [node'] is [node] with the children under the attributes chosen by
    [descend] translated: the same class, the same attributes in the
    same order, every other attribute value as it was. *)
Definition children_translated (descend : string -> bool)
  (node node' : value) : Prop :=
  match node, node' with
  | VNode cls attrs, VNode cls' attrs' =>
      cls' = cls /\
      Forall2
        (fun kv kv' =>
           fst kv' = fst kv /\
           if descend (fst kv) then translated_child (snd kv) (snd kv')
           else snd kv' = snd kv)
        attrs attrs'
  | _, _ => False
  end.

(** The attributes under which [visit] translates children when it
    hands a node of class [cls] back: [body] alone in a [For] loop,
    [args] alone in a [FunctionCall], the fields otherwise. *)
Definition descends (cls k : string) : bool :=
  if String.eqb cls "For" then String.eqb k "body"
  else if String.eqb cls "FunctionCall" then String.eqb k "args"
  else is_field cls k.

(** A node that is neither of the two loop idioms nor a call of
    [distance] or [int].  A [For] loop has an iterable and a body list,
    a [FunctionCall] a callee and an argument list. *)
Definition unrecognized (node : value) : Prop :=
  match node with
  | VNode cls attrs =>
      if String.eqb cls "For" then
        exists iter body,
          assoc "iter" attrs = Some iter /\ plain_iterable iter = true /\
          assoc "body" attrs = Some (VList body)
      else if String.eqb cls "FunctionCall" then
        exists func args,
          assoc "func" attrs = Some func /\ math_call func = false /\
          assoc "args" attrs = Some (VList args)
      else True
  | _ => False
  end.

(** The values [visit] is applied to below a node it hands back. *)
Definition visited_in (cls k : string) (v : value) : list value :=
  if descends cls k then
    match v with
    | VNode _ _ => [v]
    | VList items =>
        if String.eqb cls "For" || String.eqb cls "FunctionCall" then items
        else filter (fun x => match x with VNode _ _ => true | _ => false end)
                    items
    | _ => []
    end
  else [].

Definition visited (node : value) : list value :=
  match node with
  | VNode cls attrs => flat_map (fun kv => visited_in cls (fst kv) (snd kv)) attrs
  | _ => []
  end.

End PythonToStencilModel.

End Frontend.

(** ** Arrays and the host memory *)

Module Numpy.
Import Py.

Inductive dtype : Type := float32 | float64 | int32 | int64.

Definition dtype_eqb (a b : dtype) : bool :=
  match a, b with
  | float32, float32 | float64, float64 | int32, int32 | int64, int64 => true
  | _, _ => false
  end.

(** An array object: [base] is the address of its buffer and stands for
    the identity of the object; [dtype] and [shape] are its descriptor.
    The cells live in the memory, under [base]. *)
Record ndarray : Type := mk_ndarray {
  base : nat;
  dtype_of : dtype;
  shape : list Z
}.

(** [a.ndim] is the length of [a.shape]. *)
Definition ndim (a : ndarray) : nat := List.length (shape a).

(** [len(a)]: the first extent; a zero-dimensional array has none. *)
Definition len (a : ndarray) : res Z :=
  match shape a with
  | [] => Raise TypeError
  | d :: _ => Ok d
  end.

(** [a.size]: the number of cells. *)
Definition size (a : ndarray) : nat :=
  Z.to_nat (fold_left Z.mul (shape a) 1).

(** The host memory: the buffers allocated so far, each a list of cells
    (a cell is kept as the integer its bits spell, zero for [0.0]), and
    the next free address. *)
Record memory : Type := mk_memory {
  next_addr : nat;
  cells : list (nat * list Z)
}.

Fixpoint read (m : list (nat * list Z)) (addr : nat) : option (list Z) :=
  match m with
  | [] => None
  | (a, c) :: rest => if Nat.eqb a addr then Some c else read rest addr
  end.

(** [np.zeros_like(a)]: a new array with the dtype and shape of [a],
    every cell zero. *)
Definition zeros_like (a : ndarray) (m : memory) : ndarray * memory :=
  let out := mk_ndarray (next_addr m) (dtype_of a) (shape a) in
  (out, mk_memory (S (next_addr m))
                  ((next_addr m, repeat 0 (size a)) :: cells m)).

(** Every allocated buffer lies below the next free address. *)
Definition allocated_below (m : memory) : Prop :=
  forall addr c, read (cells m) addr = Some c -> (addr < next_addr m)%nat.

End Numpy.

(** ** The native execution wrapper: [StencilFunction] *)

Module StencilFunction.
Import Py Numpy.

(** What a compiled entry point is called with: arrays, and references
    to scalars ([byref]). *)
Inductive carg : Type :=
| CArray (a : ndarray)
| CByref (addr : nat).

(** The compiled entry point.  The foreign-function layer may reject the
    arguments; otherwise the function runs and rewrites cells. *)
Definition c_function : Type :=
  list carg -> list (nat * list Z) -> res (list (nat * list Z)).

Record t : Type := mk {
  output : ndarray;
  _c_function : c_function
}.

(** The host memory together with the record of the calls made into
    compiled code, each with its full argument list. *)
Record world : Type := mk_world {
  mem : memory;
  calls : list (list carg)
}.

(** [finalize(self, tree, entry_name, entry_type, output)]: keeps the
    output array and the function compiled from the tree. *)
Definition finalize (compiled : c_function) (output : ndarray) : t :=
  mk output compiled.

(** [__call__(self, *args)]:
<<
    duration = c_float()
    args += (self.output, byref(duration))
    self._c_function( *args )
    return self.output
>> *)
Definition __call__ (self : t) (args : list carg) (w : world)
  : res ndarray * world :=
  let duration := next_addr (mem w) in
  let cells1 := (duration, [0]) :: cells (mem w) in
  let args' := args ++ [CArray (output self); CByref duration] in
  match _c_function self args' cells1 with
  | Ok cells2 =>
      (Ok (output self),
       mk_world (mk_memory (S duration) cells2) (calls w ++ [args']))
  | Raise e =>
      (Raise e,
       mk_world (mk_memory (S duration) cells1) (calls w ++ [args']))
  end.

End StencilFunction.

(** ** The GPU execution runtime: [OclStencilFunction] *)

Module OclStencilFunction.
Import Py Numpy.

Inductive cl_device_type : Type :=
| CL_DEVICE_TYPE_DEFAULT
| CL_DEVICE_TYPE_CPU
| CL_DEVICE_TYPE_GPU
| CL_DEVICE_TYPE_ACCELERATOR.

Definition is_gpu (ty : cl_device_type) : bool :=
  match ty with
  | CL_DEVICE_TYPE_GPU => true
  | _ => false
  end.

(** A positional argument of the call: an array, or some other object. *)
Inductive pyarg : Type :=
| PArray (a : ndarray)
| PObject.

Inductive argtype : Type := cl_mem | localmem.

(** A value bound to a kernel slot: a device buffer, or a local-memory
    request of a given size in bytes. *)
Inductive karg : Type :=
| cl_mem_arg (buf : nat)
| localmem_arg (nbytes : Z).

(** The calls made into the OpenCL layer.  The size passed along with a
    device buffer is the size of a handle and is not recorded; waiting
    on an event, [evt.wait()], is a wait for one event. *)
Inductive cl_call : Type :=
| Upload (buf : nat) (a : ndarray)
| SetArg (index : Z) (a : karg)
| WaitForEvents (n : nat)
| EnqueueNDRangeKernel (global_size local_size : list Z)
| Download (buf : nat) (a : ndarray).

(** The device side: the next fresh buffer handle, the calls made so
    far, and [fault], the answer of the OpenCL layer to a call after the
    calls made so far: the error it reports for it, if any. *)
Record driver : Type := mk_driver {
  next_buf : nat;
  trace : list cl_call;
  fault : list cl_call -> cl_call -> option exn
}.

Definition emit (d : driver) (cs : list cl_call) : driver :=
  mk_driver (next_buf d) (trace d ++ cs) (fault d).

(** One call into the OpenCL layer: an error the layer reports is
    raised, and the call then leaves no record. *)
Definition request (d : driver) (c : cl_call) : res driver :=
  match fault d (trace d) c with
  | Some e => Raise e
  | None => Ok (emit d [c])
  end.

(** The wrapper: the selected device's type, the argument types of the
    bound kernel, and what [finalize] records.  The context and the
    queue are handles created once by the constructor; no call reads
    more of them than their identity, and they are left out. *)
Record t : Type := mk {
  device_type : cl_device_type;
  kernel_argtypes : list argtype;
  global_size : list Z;
  ghost_depth : Z;
  output_grid : ndarray
}.

(** [finalize(self, kernel, global_size, ghost_depth, output_grid)]. *)
Definition finalize (self : t) (global_size : list Z) (ghost_depth : Z)
  (output_grid : ndarray) : t :=
  mk (device_type self) (kernel_argtypes self) global_size ghost_depth
     output_grid.

(** [sizeof(c_float)]. *)
Definition sizeof_c_float : Z := 4.

(** [local = 8] on a GPU device, [1] otherwise. *)
Definition local (ty : cl_device_type) : Z :=
  if is_gpu ty then 8 else 1.

(** Python's [reduce(f, iterable, initial)]. *)
Definition reduce {A B : Type} (f : A -> B -> A) (l : list B) (initial : A)
  : A := fold_left f l initial.

(** The local-memory size of [__call__]:
<<
    localmem_size = reduce(
        operator.mul,
        (local + (self.ghost_depth * 2) for _ in range(args[0].ndim)),
        sizeof(c_float)
    )
>> *)
Definition localmem_size (ty : cl_device_type) (ghost_depth : Z) (ndim : nat)
  : Z :=
  reduce Z.mul (repeat (local ty + ghost_depth * 2) ndim) sizeof_c_float.

(** The upload loop of [__call__] over [enumerate(args[:-1])]:
<<
    buf, evt = buffer_from_ndarray(self.queue, arg, blocking=False)
    events.append(evt)
    bufs.append(buf)
    self.kernel.setarg(index, buf, sizeof(cl_mem))
>>
    It returns [bufs].  Each upload creates a device buffer; an error
    of the OpenCL layer ends the loop. *)
Fixpoint upload (index : nat) (args : list pyarg) (d : driver)
  : res (list nat) * driver :=
  match args with
  | [] => (Ok [], d)
  | PObject :: _ => (Raise TypeError, d)
  | PArray a :: rest =>
      let buf := next_buf d in
      match request d (Upload buf a) with
      | Raise e => (Raise e, d)
      | Ok d0 =>
          let d1 := mk_driver (S buf) (trace d0) (fault d0) in
          match request d1 (SetArg (Z.of_nat index) (cl_mem_arg buf)) with
          | Raise e => (Raise e, d1)
          | Ok d2 =>
              match upload (S index) rest d2 with
              | (Ok bufs, d3) => (Ok (buf :: bufs), d3)
              | (Raise e, d3) => (Raise e, d3)
              end
          end
      end
  end.

(** The loop [for mem in bufs: del mem]: it binds the loop variable to
    each buffer in turn and unbinds it again.  The list [bufs] holds
    every buffer as before, and the OpenCL layer is not called. *)
Definition unbind_each (bufs : list nat) (d : driver) : list nat * driver :=
  fold_left (fun state _mem => state) bufs (bufs, d).

(** [seq[-k]] for [k >= 1]. *)
Definition from_end {A : Type} (l : list A) (k : nat) : res A :=
  if (List.length l <? k)%nat then Raise IndexError
  else match nth_error l (List.length l - k) with
       | Some x => Ok x
       | None => Raise IndexError
       end.

(** [__call__(self, *args)]:
<<
    self.kernel.argtypes = tuple(
        cl_mem for _ in args[:-1]
    ) + (localmem, )
    bufs = []
    events = []
    for index, arg in enumerate(args[:-1]):
        ...
    cl.clWaitForEvents( *events )
    if self.device.type == cl.cl_device_type.CL_DEVICE_TYPE_GPU:
        local = 8
    else:
        local = 1
    localmem_size = reduce(...)
    self.kernel.setarg(
        len(args) - 1, localmem(localmem_size), localmem_size
    )
    evt = clEnqueueNDRangeKernel(
        self.queue, self.kernel, self.global_size,
        tuple(local for _ in range(args[0].ndim))
    )
    evt.wait()
    buf, evt = buffer_to_ndarray(
        self.queue, bufs[-1], args[-2]
    )
    evt.wait()
    for mem in bufs:
        del mem

    return buf
>>
    Every call into the OpenCL layer may fail, and the error is raised
    from [__call__]; the driver is then as the failing statement found
    it.  The function's statements release no buffer; what becomes of
    the buffers in [bufs] once the frame is gone is the business of the
    interpreter and of the binding, and is not described here. *)
Definition __call__ (self : t) (args : list pyarg) (d : driver)
  : res ndarray * t * driver :=
  let self1 :=
    mk (device_type self)
       (repeat cl_mem (List.length (removelast args)) ++ [localmem])
       (global_size self) (ghost_depth self) (output_grid self) in
  match upload 0 (removelast args) d with
  | (Raise e, d1) => (Raise e, self1, d1)
  | (Ok bufs, d1) =>
  match request d1 (WaitForEvents (List.length bufs)) with
  | Raise e => (Raise e, self1, d1)
  | Ok d2 =>
  match nth_error args 0 with
  | None => (Raise IndexError, self1, d2)
  | Some PObject => (Raise (AttributeError "ndim"), self1, d2)
  | Some (PArray a0) =>
  let nbytes :=
    localmem_size (device_type self) (ghost_depth self) (ndim a0) in
  match request d2 (SetArg (Z.of_nat (List.length args) - 1)
                      (localmem_arg nbytes)) with
  | Raise e => (Raise e, self1, d2)
  | Ok d3 =>
  match request d3 (EnqueueNDRangeKernel (global_size self)
                      (repeat (local (device_type self)) (ndim a0))) with
  | Raise e => (Raise e, self1, d3)
  | Ok d4 =>
  match request d4 (WaitForEvents 1) with
  | Raise e => (Raise e, self1, d4)
  | Ok d5 =>
  match from_end bufs 1 with
  | Raise e => (Raise e, self1, d5)
  | Ok out_buf =>
  match from_end args 2 with
  | Raise e => (Raise e, self1, d5)
  | Ok PObject => (Raise TypeError, self1, d5)
  | Ok (PArray host) =>
  match request d5 (Download out_buf host) with
  | Raise e => (Raise e, self1, d5)
  | Ok d6 =>
  match request d6 (WaitForEvents 1) with
  | Raise e => (Raise e, self1, d6)
  | Ok d7 =>
      let '(_, d8) := unbind_each bufs d7 in
      (Ok host, self1, d8)
  end end end end end end end end end end.

(** The calls an invocation makes into the OpenCL layer when none
    fails, [first_buf] being the first fresh buffer handle, [arrays] the
    arguments but the last, [nargs] the number of arguments: the uploads
    and bindings of the loop, the wait for the uploads, the local-memory
    binding, the launch and its wait, the download from the last buffer
    and its wait. *)
Fixpoint upload_calls (index buf : nat) (arrays : list ndarray)
  : list cl_call :=
  match arrays with
  | [] => []
  | a :: rest =>
      Upload buf a :: SetArg (Z.of_nat index) (cl_mem_arg buf)
      :: upload_calls (S index) (S buf) rest
  end.

Definition invocation_calls (self : t) (first_buf : nat)
  (arrays : list ndarray) (nargs : nat) : list cl_call :=
  let n := List.length arrays in
  let rank := ndim (nth 0 arrays (mk_ndarray 0 float32 [])) in
  upload_calls 0 first_buf arrays
  ++ [WaitForEvents n;
      SetArg (Z.of_nat nargs - 1)
        (localmem_arg
           (localmem_size (device_type self) (ghost_depth self) rank));
      EnqueueNDRangeKernel (global_size self)
        (repeat (local (device_type self)) rank);
      WaitForEvents 1;
      Download (first_buf + (n - 1))
        (nth (n - 1) arrays (mk_ndarray 0 float32 []));
      WaitForEvents 1].

(** Whether the OpenCL layer answers every call of a sequence without
    an error, the sequence being made after [history]. *)
Fixpoint accepts (fault : list cl_call -> cl_call -> option exn)
  (history calls : list cl_call) : bool :=
  match calls with
  | [] => true
  | c :: rest =>
      match fault history c with
      | Some _ => false
      | None => accepts fault (history ++ [c]) rest
      end
  end.

End OclStencilFunction.

(** ** The backends *)

Module Backend.

(** The transformer classes the two [backend_dict] tables map backend
    names to. *)
Inductive transformer : Type :=
| StencilCTransformer
| StencilOmpTransformer
| StencilOclTransformer.

End Backend.

(** ** The lazy specializer: [SpecializedStencil] *)

Module SpecializedStencil.
Import Py Numpy Backend.

(** [StencilArgConfig = namedtuple('StencilArgConfig',
    ['size', 'dtype', 'ndim', 'shape'])]. *)
Record StencilArgConfig : Type := mk_config {
  cfg_size : Z;
  cfg_dtype : dtype;
  cfg_ndim : nat;
  cfg_shape : list Z
}.

(** The attributes the methods below read and write.  [args] is unset
    until [args_to_subconfig] has run; [output] starts as [None]. *)
Record t : Type := mk {
  testing : bool;
  backend : transformer;
  output : option ndarray;
  args : option (list ndarray)
}.

Fixpoint configs (l : list ndarray) : res (list StencilArgConfig) :=
  match l with
  | [] => Ok []
  | arg :: rest =>
      match len arg with
      | Raise e => Raise e
      | Ok n =>
          match configs rest with
          | Raise e => Raise e
          | Ok cs =>
              Ok (mk_config n (dtype_of arg) (ndim arg) (shape arg) :: cs)
          end
      end
  end.

(** [args_to_subconfig(self, args)]:
<<
    self.args = args
    return tuple(
        StencilArgConfig(len(arg), arg.dtype, arg.ndim, arg.shape)
        for arg in args
    )
>> *)
Definition args_to_subconfig (self : t) (args : list ndarray)
  : res (list StencilArgConfig) * t :=
  (configs args, mk (testing self) (backend self) (output self) (Some args)).

(** [generate_output(self, args)]:
<<
    if self.output is not None:
        return self.output
    self.output = np.zeros_like(args[0])
    return self.output
>> *)
Definition generate_output (self : t) (args : list ndarray) (m : memory)
  : res ndarray * t * memory :=
  match output self with
  | Some out => (Ok out, self, m)
  | None =>
      match args with
      | [] => (Raise IndexError, self, m)
      | first :: _ =>
          let '(out, m') := zeros_like first m in
          (Ok out,
           mk (testing self) (backend self) (Some out) (SpecializedStencil.args self),
           m')
      end
  end.

(** The head of [transform(self, tree, program_config)], where the build
    obtains its output array:
<<
    output = self.generate_output(self.args)
>>
    What follows in [transform] hands the tree, the arguments and this
    output to the backend emitter. *)
Definition transform_output (self : t) (m : memory)
  : res ndarray * t * memory :=
  match args self with
  | None => (Raise (AttributeError "args"), self, m)
  | Some a => generate_output self a m
  end.

(** The equality of descriptors the specification states for two
    argument lists: element-wise equal dtype, ndim and shape. *)
Definition same_descriptors (a1 a2 : list ndarray) : Prop :=
  Forall2
    (fun x y =>
       dtype_of x = dtype_of y /\ ndim x = ndim y /\ shape x = shape y)
    a1 a2.

(** One build for a call with arguments [call_args]: the arguments pass
    through [args_to_subconfig], and [transform] is run for the derived
    configuration. *)
Definition build (self : t) (call_args : list ndarray) (m : memory)
  : res ndarray * t * memory :=
  match args_to_subconfig self call_args with
  | (Raise e, self1) => (Raise e, self1, m)
  | (Ok _, self1) => transform_output self1 m
  end.

End SpecializedStencil.

(** ** The kernel class: [StencilKernel] *)

Module StencilKernel.
Import Py Numpy Backend.

(** [backend_dict]: the class attribute mapping backend names to
    transformers, [None] for the interpreted one. *)
Definition backend_dict (name : string) : res (option transformer) :=
  if String.eqb name "c" then Ok (Some StencilCTransformer)
  else if String.eqb name "omp" then Ok (Some StencilOmpTransformer)
  else if String.eqb name "ocl" then Ok (Some StencilOclTransformer)
  else if String.eqb name "opencl" then Ok (Some StencilOclTransformer)
  else if String.eqb name "python" then Ok None
  else Raise (KeyError name).

(** What the constructor call in the cache block of [shadow_kernel] is
    given: the kernel model, the arguments, the output grid and the
    testing flag (the kernel itself is the fourth argument).  An object
    made from them is kept as the record of these. *)
Record specialized_stencil : Type := mk_specialized {
  sp_args : list ndarray;
  sp_output_grid : ndarray;
  sp_testing : bool
}.

(** The instance attributes [__init__] sets, with [specialized], which
    [shadow_kernel] sets.  [model], the bound [kernel] method, is opaque
    and is left out. *)
Record t : Type := mk {
  backend : option transformer;
  testing : bool;
  should_unroll : bool;
  should_cacheblock : bool;
  block_size : Z;
  specialized_sizes : option (list (list Z));
  specialized : option specialized_stencil
}.

(** What a method may touch outside the object: the host memory, and the
    specializations built so far. *)
Record world : Type := mk_world {
  mem : memory;
  builds : list specialized_stencil
}.

(** [list.index(x)]: the position of the first [x], [ValueError] when
    there is none. *)
Fixpoint index (x : string) (l : list string) : res nat :=
  match l with
  | [] => Raise ValueError
  | y :: rest =>
      if String.eqb y x then Ok 0%nat
      else match index x rest with
           | Ok i => Ok (S i)
           | Raise e => Raise e
           end
  end.

(** [__init__(self, backend="c", testing=False)].  [names] is
    [dir(self)], the names of the attributes the instance has through
    its class; a class that defines a [kernel] method puts ["kernel"]
    there.
<<
    try:
        dir(self).index("kernel")
    except ValueError:
        raise Exception("No kernel method defined.")

    self.backend = self.backend_dict[backend]
    self.testing = testing
    self.model = self.kernel
    self.should_unroll = True
    self.should_cacheblock = False
    self.block_size = 1
    self.specialized_sizes = None
>> *)
Definition __init__ (names : list string) (backend : string)
  (testing : bool) (w : world) : res t * world :=
  match index "kernel" names with
  | Raise ValueError => (Raise (Exception "No kernel method defined."), w)
  | Raise e => (Raise e, w)
  | Ok _ =>
      match backend_dict backend with
      | Raise e => (Raise e, w)
      | Ok b => (Ok (mk b testing true false 1 None None), w)
      end
  end.

Fixpoint shape_eqb (a b : list Z) : bool :=
  match a, b with
  | [], [] => true
  | x :: a', y :: b' => Z.eqb x y && shape_eqb a' b'
  | _, _ => false
  end.

Fixpoint shapes_eqb (a b : list (list Z)) : bool :=
  match a, b with
  | [], [] => true
  | x :: a', y :: b' => shape_eqb x y && shapes_eqb a' b'
  | _, _ => false
  end.

(** The condition of the cache test in [shadow_kernel]:
<<
    not self.specialized_sizes or\
            self.specialized_sizes != [y.shape for y in args]
>>
    [None] and the empty list are false as conditions, and [None] is
    unequal to every list. *)
Definition stale (sizes : option (list (list Z))) (args : list ndarray)
  : bool :=
  match sizes with
  | None | Some [] => true
  | Some l => negb (shapes_eqb l (map shape args))
  end.

End StencilKernel.

(** ** Host syntax trees *)

Module PyAst.
Import Py.

(** The node classes of the host language's [ast] module that the
    examples use, with the fields of each in the order of its
    [_fields]; and the two node classes of the C tree library. *)
Definition Load : value := VNode "Load" [].
Definition Store : value := VNode "Store" [].
Definition Pass : value := VNode "Pass" [].

Definition Name (id : string) (ctx : value) : value :=
  VNode "Name" [("id", VStr id); ("ctx", ctx)].

Definition Num (n : Z) : value := VNode "Num" [("n", VInt n)].

Definition Attribute (v : value) (attr : string) (ctx : value) : value :=
  VNode "Attribute" [("value", v); ("attr", VStr attr); ("ctx", ctx)].

Definition Call (func : value) (args : list value) : value :=
  VNode "Call" [("func", func); ("args", VList args);
                ("keywords", VList []); ("starargs", VNone);
                ("kwargs", VNone)].

Definition Expr (v : value) : value := VNode "Expr" [("value", v)].

Definition For (target iter : value) (body orelse : list value) : value :=
  VNode "For" [("target", target); ("iter", iter); ("body", VList body);
               ("orelse", VList orelse)].

Definition If (test : value) (body orelse : list value) : value :=
  VNode "If" [("test", test); ("body", VList body);
              ("orelse", VList orelse)].

Definition SymbolRef (name : string) : value :=
  VNode "SymbolRef" [("name", VStr name)].

Definition FunctionCall (func : value) (args : list value) : value :=
  VNode "FunctionCall" [("func", func); ("args", VList args)].

(** [str] of a tree node, for the examples: a symbol reference prints as
    its name, any other node as its class name in angle brackets. *)
Definition node_str (v : value) : string :=
  match v with
  | VNode "SymbolRef" attrs =>
      match assoc "name" attrs with
      | Some (VStr s) => s
      | _ => "<SymbolRef>"
      end
  | VNode cls _ => String.append "<" (String.append cls ">")
  | _ => "<object>"
  end.

(** [for p in G.neighbors(x, 1): pass]. *)
Definition neighbors_loop : value :=
  For (Name "p" Store)
      (Call (Attribute (Name "G" Load) "neighbors" Load)
            [Name "x" Load; Num 1])
      [Pass] [].

(** [for x in self.interior_points(G):] with [neighbors_loop] as body. *)
Definition interior_loop : value :=
  For (Name "x" Store)
      (Call (Attribute (Name "self" Load) "interior_points" Load)
            [Name "G" Load])
      [neighbors_loop] [].

(** A loop over [range(3)] whose [else] clause holds [interior_loop]:
<<
    for i in range(3):
        pass
    else:
        for x in self.interior_points(G): ...
>> *)
Definition loop_with_else : value :=
  For (Name "i" Store) (Call (Name "range" Load) [Num 3])
      [Pass] [interior_loop].

(** [for p in G.neighbors(x, k): pass], the level a variable, under an
    [if]. *)
Definition guarded_variable_level : value :=
  If (Name "flag" Load)
     [For (Name "p" Store)
          (Call (Attribute (Name "G" Load) "neighbors" Load)
                [Name "x" Load; Name "k" Load])
          [Pass] []]
     [].

End PyAst.

(** ** Concrete inputs *)

Module Examples.
Import Py Numpy.

(** Three input grids and two output grids, at distinct addresses. *)
Definition grid8_f32 : ndarray := mk_ndarray 0 float32 [8; 8].
Definition grid8_f64 : ndarray := mk_ndarray 1 float64 [8; 8].
Definition grid16_f32 : ndarray := mk_ndarray 2 float32 [16; 16].
Definition out8_f32 : ndarray := mk_ndarray 3 float32 [8; 8].
Definition out8_f64 : ndarray := mk_ndarray 4 float64 [8; 8].

(** A host memory in which the five grids are allocated. *)
Definition host_memory : memory :=
  mk_memory 5 [(4%nat, repeat 0 64%nat);
               (3%nat, repeat 0 64%nat); (2%nat, repeat 1 256%nat);
               (1%nat, repeat 1 64%nat); (0%nat, repeat 1 64%nat)].

(** A kernel object as construction with the backend ["python"] leaves
    it, the only backend for which [__init__] runs. *)
Definition fresh_kernel : StencilKernel.t :=
  StencilKernel.mk None false true false 1 None None.

Definition idle_world : StencilKernel.world :=
  StencilKernel.mk_world host_memory [].

(** A specializer as its constructor leaves it. *)
Definition fresh_specializer : SpecializedStencil.t :=
  SpecializedStencil.mk false Backend.StencilCTransformer None None.

(** A GPU wrapper finalized for 8 by 8 grids with ghost depth 1, and the
    arguments of a call: one input, the output, a trailing object. *)
Definition gpu_function : OclStencilFunction.t :=
  OclStencilFunction.mk OclStencilFunction.CL_DEVICE_TYPE_GPU []
                        [6; 6] 1 out8_f32.

Definition gpu_args : list OclStencilFunction.pyarg :=
  [OclStencilFunction.PArray grid8_f32; OclStencilFunction.PArray out8_f32;
   OclStencilFunction.PObject].

(** Two further grids, 10 by 10; a GPU wrapper finalized for them with
    ghost depth 1, whose launch of 8 by 8 work items divides into groups
    of 8 by 8; and the arguments of a call. *)
Definition grid10_f32 : ndarray := mk_ndarray 5 float32 [10; 10].
Definition out10_f32 : ndarray := mk_ndarray 6 float32 [10; 10].

Definition gpu_function10 : OclStencilFunction.t :=
  OclStencilFunction.mk OclStencilFunction.CL_DEVICE_TYPE_GPU []
                        [8; 8] 1 out10_f32.

Definition gpu_args10 : list OclStencilFunction.pyarg :=
  [OclStencilFunction.PArray grid10_f32; OclStencilFunction.PArray out10_f32;
   OclStencilFunction.PObject].

(** A device on which nothing is allocated and that checks its calls: a
    launch needs as many local sizes as global ones, all positive, each
    local size dividing its global size, and a wait needs at least one
    event. *)
Definition launch_ok (global_size local_size : list Z) : bool :=
  Nat.eqb (List.length global_size) (List.length local_size)
  && forallb (fun gl => (0 <? fst gl) && (0 <? snd gl)
                        && (fst gl mod snd gl =? 0))
             (combine global_size local_size).

Definition checking_fault (history : list OclStencilFunction.cl_call)
  (c : OclStencilFunction.cl_call) : option exn :=
  match c with
  | OclStencilFunction.EnqueueNDRangeKernel gs ls =>
      if launch_ok gs ls then None
      else Some (Exception "CL_INVALID_WORK_GROUP_SIZE")
  | OclStencilFunction.WaitForEvents 0 => Some (Exception "CL_INVALID_VALUE")
  | _ => None
  end.

Definition checking_device : OclStencilFunction.driver :=
  OclStencilFunction.mk_driver 0 [] checking_fault.

(** A compiled entry point that writes [7] into every cell of the array
    passed last but one, and a wrapper around it. *)
Definition fill_seven : StencilFunction.c_function :=
  fun args cells =>
    match rev args with
    | _ :: StencilFunction.CArray out :: _ =>
        Ok ((base out, repeat 7 (size out)) :: cells)
    | _ => Raise TypeError
    end.

Definition native_function : StencilFunction.t :=
  StencilFunction.finalize fill_seven out8_f32.

Definition native_world : StencilFunction.world :=
  StencilFunction.mk_world host_memory [].

End Examples.

(** ** Construction: [StencilKernel.__new__] and the two constructors *)

Module Construction.
Import Py Numpy Backend.

(** [SpecializedStencil.backend_dict]: the specializer's own table, with
    no entry for the interpreted backend. *)
Definition backend_dict (name : string) : res transformer :=
  if String.eqb name "c" then Ok StencilCTransformer
  else if String.eqb name "omp" then Ok StencilOmpTransformer
  else if String.eqb name "ocl" then Ok StencilOclTransformer
  else if String.eqb name "opencl" then Ok StencilOclTransformer
  else Raise (KeyError name).

(** [x in names]. *)
Definition has_name (x : string) (names : list string) : bool :=
  existsb (String.eqb x) names.

(** [SpecializedStencil.__init__(self, kernel, backend, testing)]:
<<
    self.testing = testing
    self.kernel = kernel
    self.backend = self.backend_dict[backend]
    self.output = None
    super(SpecializedStencil, self).__init__(get_ast(kernel.kernel))
>>
    [kernel_names] are the attributes of the kernel object; reading
    [kernel.kernel] fails when there is none of that name.  [parsed] is
    the outcome of [get_ast] and of the base class constructor, which
    are the tree library's. *)
Definition SpecializedStencil__init__ (kernel_names : list string)
  (backend : string) (testing : bool) (parsed : res unit)
  : res SpecializedStencil.t :=
  match backend_dict backend with
  | Raise e => Raise e
  | Ok b =>
      if has_name "kernel" kernel_names then
        match parsed with
        | Raise e => Raise e
        | Ok _ => Ok (SpecializedStencil.mk testing b None None)
        end
      else Raise (AttributeError "kernel")
  end.

(** What the expression [cls(backend, testing)] evaluates to. *)
Inductive constructed : Type :=
| Kernel (k : StencilKernel.t)
| Specializer (s : SpecializedStencil.t)
| NoObject.

(** The call [cls(backend, testing)] of a subclass of [StencilKernel]:
    [__new__] runs first,
<<
    if backend == 'python':
        cls.__call__ = cls.pure_python
        return super(StencilKernel, cls).__new__(cls, backend, testing)
    elif backend in ['c', 'omp', 'ocl']:
        new = super(StencilKernel, cls).__new__(cls, backend, testing)
        return SpecializedStencil(new, backend, testing)
>>
    (the module is Python 2 code: it calls the builtin [reduce] and
    imports its siblings by bare name; there [object.__new__] accepts
    the two extra arguments of a class that defines both [__new__] and
    [__init__]), and [__init__] is run on what it returns only when
    that is an instance of the class: on the new object for the interpreted
    backend, not on a specializer, and not on [None], which is what a
    function returns that falls off its end.  [names] are the attribute
    names the class gives its instances. *)
Definition construct (names : list string) (backend : string)
  (testing : bool) (parsed : res unit) (w : StencilKernel.world)
  : res constructed * StencilKernel.world :=
  if String.eqb backend "python" then
    match StencilKernel.__init__ names backend testing w with
    | (Ok k, w') => (Ok (Kernel k), w')
    | (Raise e, w') => (Raise e, w')
    end
  else if String.eqb backend "c" || String.eqb backend "omp"
          || String.eqb backend "ocl" then
    match SpecializedStencil__init__ names backend testing parsed with
    | Ok s => (Ok (Specializer s), w)
    | Raise e => (Raise e, w)
    end
  else (Ok NoObject, w).

End Construction.

(** ** Finalization: [SpecializedStencil.finalize] and the signature *)

Module Finalize.
Import Py Numpy Backend SpecializedStencil.

(** A parameter type of the entry point: [np.ctypeslib.ndpointer(dtype,
    ndim, shape)] or [POINTER(c_float)]. *)
Inductive ctype : Type :=
| ndpointer (d : dtype) (n : nat) (s : list Z)
| POINTER_c_float.

(** The array parameters, of [transform] and of [finalize] alike:
<<
    param_types = [
        np.ctypeslib.ndpointer(arg.dtype, arg.ndim, arg.shape)
        for arg in arg_cfg + (output,)
    ]
>> *)
Definition array_types (arg_cfg : list StencilArgConfig) (output : ndarray)
  : list ctype :=
  map (fun c => ndpointer (cfg_dtype c) (cfg_ndim c) (cfg_shape c)) arg_cfg
  ++ [ndpointer (dtype_of output) (ndim output) (shape output)].

(** The signature, with the trailing parameter:
<<
    if self.backend == StencilOclTransformer:
        param_types.append(param_types[0])
    else:
        param_types.append(POINTER(c_float))
>> *)
Definition param_types (backend : transformer)
  (arg_cfg : list StencilArgConfig) (output : ndarray) : res (list ctype) :=
  let types := array_types arg_cfg output in
  match backend with
  | StencilOclTransformer =>
      match types with
      | [] => Raise IndexError
      | first :: _ => Ok (types ++ [first])
      end
  | _ => Ok (types ++ [POINTER_c_float])
  end.

(** The launch geometry of the OpenCL branch of [finalize]:
<<
    global_size = tuple(
        dim - 2 * self.kernel.ghost_depth
        for dim in arg_cfg[0].shape
    )
>> *)
Definition global_size (ghost_depth : Z) (arg_cfg : list StencilArgConfig)
  : res (list Z) :=
  match arg_cfg with
  | [] => Raise IndexError
  | first :: _ => Ok (map (fun dim => dim - 2 * ghost_depth) (cfg_shape first))
  end.

(** [OclStencilFunction.__init__]: the device chosen is the last one
    enumerated,
<<
    devices = cl.clGetDeviceIDs()
    self.device = devices[-1]
>> *)
Definition select_device
  (devices : list OclStencilFunction.cl_device_type)
  : res OclStencilFunction.cl_device_type :=
  OclStencilFunction.from_end devices 1.

(** The concrete function [finalize] returns. *)
Inductive concrete : Type :=
| Native (fn : StencilFunction.t)
| OpenCL (fn : OclStencilFunction.t).

(** [finalize(self, tree, program_config)].  The signature is built
    first, from [arg_cfg + (self.output, )]: with no output array yet,
    reading the dtype of [None] fails.  [compiled] is the entry point
    the toolchain returns for the tree, [devices] what the platform
    enumerates, [ghost_depth] the kernel's. *)
Definition finalize (self : SpecializedStencil.t)
  (arg_cfg : list StencilArgConfig) (ghost_depth : Z)
  (compiled : StencilFunction.c_function)
  (devices : list OclStencilFunction.cl_device_type) : res concrete :=
  match output self with
  | None => Raise (AttributeError "dtype")
  | Some out =>
      match param_types (backend self) arg_cfg out with
      | Raise e => Raise e
      | Ok _ =>
          match backend self with
          | StencilOclTransformer =>
              match select_device devices with
              | Raise e => Raise e
              | Ok device =>
                  match global_size ghost_depth arg_cfg with
                  | Raise e => Raise e
                  | Ok gs =>
                      Ok (OpenCL
                            (OclStencilFunction.finalize
                               (OclStencilFunction.mk device [] [] 0 out)
                               gs ghost_depth out))
                  end
              end
          | _ => Ok (Native (StencilFunction.finalize compiled out))
          end
      end
  end.

End Finalize.

(** ** The interpreted path and the default distance *)

Module PurePython.
Import Py Numpy.

(** The user's kernel method: it is handed the arguments and may rewrite
    memory, or raise. *)
Definition kernel_method : Type := list ndarray -> memory -> res memory.

(** [pure_python(self, *args)]:
<<
    output = np.zeros_like(args[0])
    self.kernel( *(args + (output,)) )
    return output
>> *)
Definition pure_python (kernel : kernel_method) (args : list ndarray)
  (m : memory) : res ndarray * memory :=
  match args with
  | [] => (Raise IndexError, m)
  | first :: _ =>
      let '(output, m1) := zeros_like first m in
      match kernel (args ++ [output]) m1 with
      | Ok m2 => (Ok output, m2)
      | Raise e => (Raise e, m1)
      end
  end.

(** The list under the sum of [distance(self, x, y)], for points with
    integer coordinates:
<<
    [(x[i]-y[i])**2 for i in range(0, len(x))]
>>
    Reading [y[i]] fails when [y] is shorter than [x]. *)
Fixpoint squares (x y : list Z) : res (list Z) :=
  match x, y with
  | [], _ => Ok []
  | _ :: _, [] => Raise IndexError
  | a :: x', b :: y' =>
      match squares x' y' with
      | Ok rest => Ok ((a - b) ^ 2 :: rest)
      | Raise e => Raise e
      end
  end.

(** [sum(...)] of that list: the number [distance] takes the square
    root of. *)
Definition squared_distance (x y : list Z) : res Z :=
  match squares x y with
  | Ok l => Ok (fold_left Z.add l 0)
  | Raise e => Raise e
  end.

End PurePython.

(** ** The retired interception: [shadow_kernel] *)

Module ShadowKernel.
Import Py Numpy StencilKernel PurePython.

(** The condition [self.pure_python] of [shadow_kernel].  No statement
    of the class assigns an instance attribute of that name (the
    assignment in [__init__] is commented out), so the attribute read is
    the method [pure_python] of the class, and a bound method is true as
    a condition. *)
Definition pure_python_condition : bool := true.

(** [SpecializedStencil(self.model, args, output_grid, self,
    self.testing)]: five arguments for a constructor declared as
    [__init__(self, kernel, backend, testing=False)].  The call raises
    [TypeError] before the body of the constructor runs, and there is no
    object. *)
Definition SpecializedStencil_of_five (args : list ndarray)
  (output_grid : ndarray) (testing : bool) : res specialized_stencil :=
  Raise TypeError.

(** The cache block, entered with the output grid of the call:
<<
    if not self.specialized_sizes or\
            self.specialized_sizes != [y.shape for y in args]:
        self.specialized = SpecializedStencil(
            self.model, args, output_grid, self, self.testing
        )
        self.specialized_sizes = [arg.shape for arg in args]
>>
    The assignments come after the constructor call and are not reached
    when it raises. *)
Definition cache_block (self : StencilKernel.t) (args : list ndarray)
  (output_grid : ndarray) (w : world) : res (StencilKernel.t * world) :=
  if stale (specialized_sizes self) args then
    match SpecializedStencil_of_five args output_grid (testing self) with
    | Raise e => Raise e
    | Ok built =>
        Ok (mk (backend self) (testing self) (should_unroll self)
               (should_cacheblock self) (block_size self)
               (Some (map shape args)) (Some built),
            mk_world (mem w) (builds w ++ [built]))
    end
  else Ok (self, w).

(** [shadow_kernel(self, *args)]:
<<
    output_grid = np.zeros_like(args[0])
    if self.pure_python:
        self.pure_python_kernel( *(args + (output_grid,)) )
        return output_grid

    if not self.specialized_sizes or\
            self.specialized_sizes != [y.shape for y in args]:
        self.specialized = SpecializedStencil(
            self.model, args, output_grid, self, self.testing
        )
        self.specialized_sizes = [arg.shape for arg in args]

    duration = c_float()
    args += (output_grid, byref(duration))
    self.specialized( *args )
    self.specialized.report(time=duration)
    return output_grid
>>
    [pure_python_kernel] is the attribute of that name, if the class of
    the object provides one: [__init__] does not (its assignment is
    commented out).  [call_specialized] stands for the last two calls,
    on the object held in [self.specialized]. *)
Definition shadow_kernel (self : StencilKernel.t)
  (pure_python_kernel : option kernel_method)
  (call_specialized :
     specialized_stencil -> list ndarray -> ndarray -> world
     -> res unit * world)
  (args : list ndarray) (w : world)
  : res ndarray * StencilKernel.t * world :=
  match args with
  | [] => (Raise IndexError, self, w)
  | first :: _ =>
      let '(output_grid, m1) := zeros_like first (mem w) in
      let w1 := mk_world m1 (builds w) in
      if pure_python_condition then
        match pure_python_kernel with
        | None => (Raise (AttributeError "pure_python_kernel"), self, w1)
        | Some kernel =>
            match kernel (args ++ [output_grid]) m1 with
            | Ok m2 => (Ok output_grid, self, mk_world m2 (builds w))
            | Raise e => (Raise e, self, w1)
            end
        end
      else
        match cache_block self args output_grid w1 with
        | Raise e => (Raise e, self, w1)
        | Ok (self1, w2) =>
            match specialized self1 with
            | None => (Raise (AttributeError "specialized"), self1, w2)
            | Some s =>
                match call_specialized s args output_grid w2 with
                | (Ok _, w3) => (Ok output_grid, self1, w3)
                | (Raise e, w3) => (Raise e, self1, w3)
                end
            end
        end
  end.

End ShadowKernel.

(** ** Sequences of calls *)

Module Sequences.
Import Py Numpy.

(** Builds on one specializer, one per argument list, with the result of
    each. *)
Fixpoint build_all (self : SpecializedStencil.t)
  (calls : list (list ndarray)) (m : memory)
  : list (res ndarray) * SpecializedStencil.t * memory :=
  match calls with
  | [] => ([], self, m)
  | call_args :: rest =>
      let '(r, self1, m1) := SpecializedStencil.build self call_args m in
      let '(rs, self2, m2) := build_all self1 rest m1 in
      (r :: rs, self2, m2)
  end.

End Sequences.

(** ** Measures and predicates used in the statements below *)

Module Auxiliary.
Import Py Numpy.
Local Open Scope py_scope.

(** The size of a value, for induction over trees. *)
Fixpoint vsize (v : value) : nat :=
  match v with
  | VList items => S (list_sum (map vsize items))
  | VNode _ attrs => S (list_sum (map (fun kv => vsize (snd kv)) attrs))
  | _ => 1%nat
  end.

(** A tree whose translation, if there is one, is left unchanged by a
    second translation. *)
Definition settled (node_str : value -> string) (v : value) : Prop :=
  forall v',
    Frontend.visit node_str v = Ok v' -> Frontend.visit node_str v' = Ok v'.

(** The backend names [__new__] hands to the specializer. *)
Definition compiled_backend (backend : string) : Prop :=
  backend = "c" \/ backend = "omp" \/ backend = "ocl".

(** A kernel method that leaves the memory as it is. *)
Definition idle_kernel : PurePython.kernel_method := fun _ m => Ok m.

End Auxiliary.

(** * Facts *)

(** ** Interior points *)

Section InteriorFacts.
Import Interior.

Lemma range_In (a b i : Z) : In i (range a b) <-> a <= i < b.
Proof.
  unfold range. rewrite in_map_iff. split.
  - intros [k [<- Hk]]. apply in_seq in Hk. lia.
  - intros Hi. exists (Z.to_nat (i - a)). split; [lia|].
    apply in_seq. lia.
Qed.

Lemma range_empty (a b : Z) : b <= a -> range a b = [].
Proof.
  intros H. unfold range.
  replace (Z.to_nat (b - a)) with 0%nat by lia. reflexivity.
Qed.

Lemma product_step_extend (x : list Z) (pool : list Z) (rest : list (list Z)) :
  flat_map (fun x' => map (app x') (cartesian rest))
           (map (fun y => x ++ [y]) pool)
  = map (app x) (flat_map (fun y => map (cons y) (cartesian rest)) pool).
Proof.
  induction pool as [|y pool IH]; simpl; [reflexivity|].
  rewrite IH, map_app, map_map. f_equal.
  apply map_ext. intros t. now rewrite <- app_assoc.
Qed.

Lemma fold_product_step (pools : list (list Z)) :
  forall acc,
    fold_left product_step pools acc
    = flat_map (fun x => map (app x) (cartesian pools)) acc.
Proof.
  induction pools as [|pool rest IH]; intros acc; simpl.
  - induction acc as [|x acc IHacc]; simpl; [reflexivity|].
    now rewrite app_nil_r, <- IHacc.
  - rewrite IH. unfold product_step.
    induction acc as [|x acc IHacc]; simpl; [reflexivity|].
    rewrite flat_map_app, IHacc. f_equal.
    apply product_step_extend.
Qed.

Lemma product_cartesian (pools : list (list Z)) :
  product pools = cartesian pools.
Proof.
  unfold product. rewrite fold_product_step. simpl.
  rewrite app_nil_r. apply map_id.
Qed.

Lemma cartesian_In (pools : list (list Z)) :
  forall p, In p (cartesian pools) <-> Forall2 (fun i pool => In i pool) p pools.
Proof.
  induction pools as [|pool rest IH]; intros p; simpl.
  - split.
    + intros [<-|[]]. constructor.
    + intros H. inversion H. now left.
  - rewrite in_flat_map. split.
    + intros [y [Hy Hp]]. apply in_map_iff in Hp as [t [<- Ht]].
      constructor; [exact Hy|]. now apply IH.
    + intros H. inversion H as [|i pool' t rest' Hi Ht]; subst.
      exists i. split; [exact Hi|]. apply in_map. now apply IH.
Qed.

Lemma interior_points_In (g : Z) (shape p : list Z) :
  In p (interior_points g shape) <-> interior g p shape.
Proof.
  unfold interior_points, interior. rewrite product_cartesian, cartesian_In.
  revert p. induction shape as [|dim shape IH]; intros p; simpl.
  - split; intros H; inversion H; constructor.
  - split; intros H; inversion H; subst; constructor;
      try (now apply range_In); now apply IH.
Qed.

Lemma lex_lt_irrefl (p : list Z) : ~ lex_lt p p.
Proof.
  induction p as [|a p IH]; intros H; inversion H; subst; [lia|auto].
Qed.

Lemma lex_sorted_app (l1 l2 : list (list Z)) :
  lex_sorted l1 -> lex_sorted l2 ->
  (forall p q, In p l1 -> In q l2 -> lex_lt p q) ->
  lex_sorted (l1 ++ l2).
Proof.
  induction 1 as [|p l Hp Hl IH]; intros H2 Hlt; simpl; [exact H2|].
  constructor.
  - apply Forall_app. split; [exact Hp|].
    apply Forall_forall. intros q Hq. apply Hlt; [now left|exact Hq].
  - apply IH; [exact H2|]. intros p' q Hp' Hq. apply Hlt; [now right|exact Hq].
Qed.

Lemma lex_sorted_map_cons (y : Z) (l : list (list Z)) :
  lex_sorted l -> lex_sorted (map (cons y) l).
Proof.
  induction 1 as [|p l Hp Hl IH]; simpl; constructor; [|exact IH].
  apply Forall_forall. intros q Hq. apply in_map_iff in Hq as [t [<- Ht]].
  apply lex_lt_tail. rewrite Forall_forall in Hp. now apply Hp.
Qed.

Lemma cartesian_sorted (pools : list (list Z)) :
  Forall (fun pool => StronglySorted Z.lt pool) pools ->
  lex_sorted (cartesian pools).
Proof.
  induction 1 as [|pool rest Hpool Hrest IH]; simpl.
  - constructor; constructor.
  - induction Hpool as [|y pool Hs IHs Hy]; simpl; [constructor|].
    apply lex_sorted_app; [now apply lex_sorted_map_cons|exact IHs|].
    intros p q Hp Hq. apply in_map_iff in Hp as [t [<- Ht]].
    apply in_flat_map in Hq as [y' [Hy' Hq]].
    apply in_map_iff in Hq as [t' [<- Ht']].
    apply lex_lt_head. rewrite Forall_forall in Hy. now apply Hy.
Qed.

Lemma range_sorted (a b : Z) : StronglySorted Z.lt (range a b).
Proof.
  unfold range. generalize (Z.to_nat (b - a)) as n. generalize 0%nat as s.
  intros s n. revert s. induction n as [|n IH]; intros s; simpl; constructor.
  - apply IH.
  - apply Forall_forall. intros x Hx. apply in_map_iff in Hx as [k [<- Hk]].
    apply in_seq in Hk. lia.
Qed.

Lemma lex_sorted_NoDup (l : list (list Z)) : lex_sorted l -> NoDup l.
Proof.
  induction 1 as [|p l Hp Hl IH]; constructor; [|exact IH].
  intros Hin. rewrite Forall_forall in Hp.
  exact (lex_lt_irrefl p (Hp p Hin)).
Qed.

Lemma interior_points_sorted (g : Z) (shape : list Z) :
  lex_sorted (interior_points g shape).
Proof.
  unfold interior_points. rewrite product_cartesian.
  apply cartesian_sorted. apply Forall_forall. intros pool Hpool.
  apply in_map_iff in Hpool as [dim [<- _]]. apply range_sorted.
Qed.

Lemma cartesian_empty_pool (pools : list (list Z)) :
  Exists (fun pool => pool = []) pools -> cartesian pools = [].
Proof.
  induction 1 as [pool rest Hpool|pool rest Hrest IH]; simpl.
  - now subst.
  - rewrite IH. induction pool as [|y pool IHp]; simpl; auto.
Qed.


(** C2.  For every ghost depth and shape, [interior_points] yields the
    Cartesian product of the ranges [range(g, dim - g)], one per
    dimension, in the order of nested loops with the first dimension
    outermost: the list is that product, its members are exactly the
    index tuples lying in every range, it is strictly increasing in the
    lexicographic order and so has no repetition.  For the shape
    (10, 10) and ghost depth 1 it is the 64 pairs (r, c) with
    1 <= r <= 8 and 1 <= c <= 8, row after row, and nothing else. *)
Theorem interior_points_product_order :
  (forall (g : Z) (shape : list Z),
      interior_points g shape
      = cartesian (map (fun dim => range g (dim - g)) shape)
      /\ (forall p, In p (interior_points g shape) <-> interior g p shape)
      /\ lex_sorted (interior_points g shape)
      /\ NoDup (interior_points g shape))
  /\ interior_points 1 [10; 10]
     = flat_map (fun r => map (fun c => [r; c]) (range 1 9)) (range 1 9)
  /\ List.length (interior_points 1 [10; 10]) = 64%nat
  /\ (forall p, In p (interior_points 1 [10; 10]) <->
                exists r c, p = [r; c] /\ 1 <= r <= 8 /\ 1 <= c <= 8).
Proof.
  split; [|split; [|split]].
  - intros g shape. split; [|split; [|split]].
    + unfold interior_points. apply product_cartesian.
    + intros p. apply interior_points_In.
    + apply interior_points_sorted.
    + apply lex_sorted_NoDup, interior_points_sorted.
  - reflexivity.
  - reflexivity.
  - intros p. rewrite interior_points_In. unfold interior. split.
    + intros H. inversion H as [|r d1 p1 s1 Hr H1]; subst.
      inversion H1 as [|c d2 p2 s2 Hc H2]; subst.
      inversion H2; subst. exists r, c. repeat split; lia.
    + intros [r [c [-> [Hr Hc]]]]. repeat constructor; lia.
Qed.

(** C10.  When some dimension of the shape has an extent of at most
    twice the ghost depth, [interior_points] yields nothing; the
    function is total, so no error is raised. *)
Theorem interior_points_thin_dimension (g : Z) (shape : list Z) :
  Exists (fun dim => dim <= 2 * g) shape ->
  interior_points g shape = [].
Proof.
  intros H. unfold interior_points. rewrite product_cartesian.
  apply cartesian_empty_pool. apply Exists_exists in H as [dim [Hin Hdim]].
  apply Exists_exists. exists (range g (dim - g)). split.
  - apply in_map_iff. now exists dim.
  - apply range_empty. lia.
Qed.

Lemma interior_points_thin_dimension_witness :
  Exists (fun dim => dim <= 2 * 2) [10; 4; 7]
  /\ interior_points 2 [10; 4; 7] = [].
Proof.
  split.
  - apply Exists_cons_tl, Exists_cons_hd. lia.
  - apply (interior_points_thin_dimension 2 [10; 4; 7]).
    apply Exists_cons_tl, Exists_cons_hd. lia.
Defined.

End InteriorFacts.

(** ** The frontend translator *)

Section FrontendFacts.
Import Py StencilModel Frontend PyAst.
Local Open Scope py_scope.

Variable node_str : value -> string.


Lemma visit_node (cls : string) (attrs : list (string * value)) :
  visit node_str (VNode cls attrs)
  = if String.eqb cls "For" then visit_For node_str (VNode cls attrs)
    else if String.eqb cls "FunctionCall"
         then visit_FunctionCall node_str (VNode cls attrs)
         else generic_visit node_str (VNode cls attrs).
Proof.
  destruct (String.eqb cls "For") eqn:HFor;
    [|destruct (String.eqb cls "FunctionCall") eqn:HCall].
  - simpl. rewrite HFor. reflexivity.
  - simpl. rewrite HFor, HCall. reflexivity.
  - simpl. rewrite HFor, HCall. reflexivity.
Qed.

Lemma bind_Ok {A B : Type} (c : res A) (k : A -> res B) (b : B) :
  bind c k = Ok b -> exists a, c = Ok a /\ k a = Ok b.
Proof. destruct c as [a|e]; simpl; [eauto|discriminate]. Qed.

Lemma visit_items_Forall2 (l : list value) :
  forall l', visit_items node_str l = Ok l' ->
             Forall2 (fun x x' => visit node_str x = Ok x') l l'.
Proof.
  induction l as [|x l IH]; simpl; intros l' H.
  - injection H as <-. constructor.
  - apply bind_Ok in H as [x' [Hx H]].
    apply bind_Ok in H as [r' [Hr H]]. injection H as <-.
    constructor; [exact Hx|now apply IH].
Qed.

Lemma visit_items_total (l : list value) :
  Forall (fun x => exists x', visit node_str x = Ok x') l ->
  exists l', visit_items node_str l = Ok l'.
Proof.
  induction 1 as [|x l [x' Hx] Hl [l' IH]]; simpl.
  - now exists [].
  - rewrite Hx, IH. simpl. now exists (x' :: l').
Qed.

Lemma generic_items_Forall2 (l : list value) :
  forall l', generic_items node_str l = Ok l' ->
             Forall2 (translated_item node_str) l l'.
Proof.
  induction l as [|x l IH]; simpl; intros l' H.
  - injection H as <-. constructor.
  - apply bind_Ok in H as [x' [Hx H]].
    apply bind_Ok in H as [r' [Hr H]]. injection H as <-.
    constructor; [|now apply IH].
    destruct x; simpl in *; try (now injection Hx as <-). exact Hx.
Qed.

Lemma generic_items_total (l : list value) :
  Forall (fun x => exists x', visit node_str x = Ok x')
         (filter (fun x => match x with VNode _ _ => true | _ => false end) l) ->
  exists l', generic_items node_str l = Ok l'.
Proof.
  induction l as [|x l IH]; intros H; [now exists []|].
  change (generic_items node_str (x :: l))
    with (x' <- generic_item node_str x ;; rest' <- generic_items node_str l ;;
          Ok (x' :: rest')).
  destruct x as [|z|s|items|cls attrs]; simpl in H;
    try (destruct (IH H) as [l' ->]; simpl; eauto; fail).
  inversion H as [|? ? [x' Hx] Hl]; subst.
  destruct (IH Hl) as [l' ->]. unfold generic_item. rewrite Hx. simpl. eauto.
Qed.

(** Translating the list under one attribute: the attribute is replaced
    by the translated list, every other lookup is as before. *)
Lemma visit_list_attr_assoc (name : string) (attrs : list (string * value)) :
  forall v v',
    assoc name attrs = Some v ->
    visit_iterable node_str v = Ok v' ->
    exists attrs',
      visit_list_attr node_str name attrs = Ok attrs'
      /\ assoc name attrs' = Some v'
      /\ (forall k, String.eqb k name = false ->
                    assoc k attrs' = assoc k attrs).
Proof.
  induction attrs as [|[k0 v0] attrs IH]; simpl; intros v v' Hv Hv';
    [discriminate|].
  destruct (String.eqb k0 name) eqn:Hk.
  - injection Hv as ->. rewrite Hv'. simpl.
    exists ((k0, v') :: attrs). split; [reflexivity|]. simpl. rewrite Hk.
    split; [reflexivity|]. intros k Hkn.
    apply String.eqb_eq in Hk. subst k0.
    rewrite String.eqb_sym, Hkn. reflexivity.
  - destruct (IH v v' Hv Hv') as [attrs' [-> [Hn Hother]]]. simpl.
    exists ((k0, v0) :: attrs'). split; [reflexivity|]. simpl. rewrite Hk.
    split; [exact Hn|]. intros k Hkn.
    destruct (String.eqb k0 k); [reflexivity|now apply Hother].
Qed.


(** C7.  A [For] node whose iterable is a call through an attribute
    named [neighbors] on a named array, with a numeric literal as second
    argument and a named loop target, is translated to a
    [NeighborPointsLoop] holding the value of the second argument as
    neighbor level, the name of the array as source array name, the name
    of the target as loop variable, and the translated body. *)
Theorem visit_For_neighbors
  (attrs : list (string * value))
  (target iter func grid args level target_id grid_id n : value)
  (body body' : list value) :
  let node := VNode "For" attrs in
  getattr node "target" = Ok target ->
  getattr target "id" = Ok target_id ->
  getattr node "iter" = Ok iter ->
  class_of iter = "Call" ->
  getattr iter "func" = Ok func ->
  class_of func = "Attribute" ->
  getattr func "attr" = Ok (VStr "neighbors") ->
  getattr func "value" = Ok grid ->
  getattr grid "id" = Ok grid_id ->
  getattr iter "args" = Ok args ->
  getitem args 1 = Ok level ->
  getattr level "n" = Ok n ->
  getattr node "body" = Ok (VList body) ->
  visit_items node_str body = Ok body' ->
  visit node_str node = Ok (NeighborPointsLoop n grid_id target_id (VList body')).
Proof.
  intros node Htarget Hid Hiter Hcall Hfunc Hattribute Hattr Hgrid Hgid
         Hargs Hlevel Hn Hbody Hitems.
  subst node. rewrite visit_node. simpl String.eqb. cbv iota.
  unfold visit_For.
  assert (Hb : assoc "body" attrs = Some (VList body)).
  { simpl in Hbody. destruct (assoc "body" attrs); [|discriminate].
    now injection Hbody as ->. }
  destruct (visit_list_attr_assoc "body" attrs (VList body) (VList body') Hb)
    as [attrs' [-> [Hb' Hother]]].
  { simpl. now rewrite Hitems. }
  cbn [bind]. unfold For_rewrite.
  assert (Hget : forall k, String.eqb k "body" = false ->
                           getattr (VNode "For" attrs') k
                           = getattr (VNode "For" attrs) k).
  { intros k Hk. simpl. now rewrite (Hother k Hk). }
  assert (Hbody' : getattr (VNode "For" attrs') "body" = Ok (VList body')).
  { simpl. now rewrite Hb'. }
  rewrite (Hget "iter" eq_refl), Hiter. cbn [bind].
  rewrite Hcall. simpl String.eqb. cbv iota.
  rewrite Hfunc. cbn [bind]. rewrite Hattribute. simpl String.eqb. cbv iota.
  rewrite Hattr. cbn [bind]. simpl is_str. cbv iota.
  rewrite Hargs. cbn [bind]. rewrite Hlevel. cbn [bind].
  rewrite Hn. cbn [bind]. rewrite Hgrid. cbn [bind]. rewrite Hgid. cbn [bind].
  rewrite (Hget "target" eq_refl), Htarget. cbn [bind].
  rewrite Hid. cbn [bind]. rewrite Hbody'. reflexivity.
Qed.

Lemma For_rewrite_plain (cls : string) (attrs : list (string * value))
  (iter : value) :
  assoc "iter" attrs = Some iter ->
  plain_iterable iter = true ->
  For_rewrite (VNode cls attrs) = Ok (VNode cls attrs).
Proof.
  intros Hiter Hplain. unfold For_rewrite. simpl getattr. rewrite Hiter.
  cbn [bind]. destruct iter as [| | | |icls iattrs]; try reflexivity.
  simpl class_of. simpl in Hplain.
  destruct (String.eqb icls "Call"); [|reflexivity].
  simpl getattr. destruct (assoc "func" iattrs) as [func|]; [|discriminate].
  cbn [bind]. destruct func as [| | | |fcls fattrs]; try reflexivity.
  simpl class_of. destruct (String.eqb fcls "Attribute"); [|reflexivity].
  simpl getattr. destruct (assoc "attr" fattrs) as [attr|]; [|discriminate].
  cbn [bind]. apply andb_prop in Hplain as [H1 H2].
  apply negb_true_iff in H1, H2. now rewrite H1, H2.
Qed.

Lemma FunctionCall_rewrite_plain (cls : string)
  (attrs : list (string * value)) (func : value) :
  assoc "func" attrs = Some func ->
  math_call node_str func = false ->
  FunctionCall_rewrite node_str (VNode cls attrs) = Ok (VNode cls attrs).
Proof.
  intros Hfunc Hmath. unfold FunctionCall_rewrite. simpl getattr.
  rewrite Hfunc. cbn [bind]. unfold math_call in Hmath. now rewrite Hmath.
Qed.

Lemma assoc_In (name : string) (attrs : list (string * value)) (v : value) :
  assoc name attrs = Some v ->
  exists k, String.eqb k name = true /\ In (k, v) attrs.
Proof.
  induction attrs as [|[k0 v0] attrs IH]; simpl; [discriminate|].
  destruct (String.eqb k0 name) eqn:Hk.
  - intros H. injection H as ->. exists k0. auto.
  - intros H. destruct (IH H) as [k [Hk' Hin]]. exists k. auto.
Qed.

Lemma assoc_not_In (name : string) (attrs : list (string * value)) :
  ~ In name (map fst attrs) ->
  Forall (fun kv => String.eqb (fst kv) name = false) attrs.
Proof.
  induction attrs as [|[k0 v0] attrs IH]; simpl; intros H; constructor.
  - simpl. apply String.eqb_neq. intros ->. apply H. now left.
  - apply IH. intros Hin. apply H. now right.
Qed.

(** Where one list attribute is translated, the node's other attributes
    come back as they were. *)
Lemma visit_list_attr_children (name : string)
  (attrs : list (string * value)) :
  forall items attrs',
    NoDup (map fst attrs) ->
    assoc name attrs = Some (VList items) ->
    visit_list_attr node_str name attrs = Ok attrs' ->
    Forall2
      (fun kv kv' =>
         fst kv' = fst kv /\
         if String.eqb (fst kv) name
         then translated_child node_str (snd kv) (snd kv')
         else snd kv' = snd kv)
      attrs attrs'.
Proof.
  induction attrs as [|[k0 v0] attrs IH]; simpl; intros items attrs' Hnd Ha H;
    [discriminate|].
  inversion Hnd as [|? ? Hnotin Hnd']; subst.
  destruct (String.eqb k0 name) eqn:Hk.
  - injection Ha as ->. simpl in H.
    apply bind_Ok in H as [v' [Hv H]]. injection H as <-.
    apply bind_Ok in Hv as [items' [Hitems Hv]]. injection Hv as <-.
    constructor.
    + simpl. rewrite Hk. split; [reflexivity|]. exists items'.
      split; [reflexivity|]. apply visit_items_Forall2 in Hitems.
      clear -Hitems. induction Hitems as [|x x' l l' Hx Hl IHl];
        constructor; [|exact IHl].
      destruct x; simpl in *; try discriminate. exact Hx.
    + apply String.eqb_eq in Hk. subst k0.
      apply assoc_not_In in Hnotin. clear -Hnotin.
      induction Hnotin as [|kv l Hkv Hl IHl]; constructor; [|exact IHl].
      rewrite Hkv. auto.
  - apply bind_Ok in H as [rest' [Hrest H]]. injection H as <-.
    constructor; [simpl; rewrite Hk; auto|].
    now apply (IH items).
Qed.

Lemma generic_fields_children (cls : string) (attrs : list (string * value)) :
  forall attrs',
    generic_fields node_str cls attrs = Ok attrs' ->
    Forall2
      (fun kv kv' =>
         fst kv' = fst kv /\
         if is_field cls (fst kv)
         then translated_child node_str (snd kv) (snd kv')
         else snd kv' = snd kv)
      attrs attrs'.
Proof.
  induction attrs as [|[k0 v0] attrs IH]; simpl; intros attrs' H.
  - injection H as <-. constructor.
  - apply bind_Ok in H as [v' [Hv H]].
    apply bind_Ok in H as [rest' [Hrest H]]. injection H as <-.
    constructor; [|now apply IH]. simpl. split; [reflexivity|].
    unfold generic_child in Hv. destruct (is_field cls k0).
    + destruct v0; simpl in *; try (now injection Hv as <-).
      * apply bind_Ok in Hv as [items' [Hitems Hv]]. injection Hv as <-.
        exists items'. split; [reflexivity|].
        now apply generic_items_Forall2.
      * exact Hv.
    + now injection Hv as <-.
Qed.

Lemma generic_fields_total (cls : string) (attrs : list (string * value)) :
  String.eqb cls "For" = false ->
  String.eqb cls "FunctionCall" = false ->
  Forall (fun x => exists x', visit node_str x = Ok x')
         (visited (VNode cls attrs)) ->
  exists attrs', generic_fields node_str cls attrs = Ok attrs'.
Proof.
  intros HFor HCall. unfold visited.
  induction attrs as [|[k0 v0] attrs IH]; intros H; [now exists []|].
  simpl in H. apply Forall_app in H as [Hhead Htail].
  destruct (IH Htail) as [rest' Hrest].
  assert (Hchild : exists v', generic_child node_str cls k0 v0 = Ok v').
  { unfold visited_in, descends in Hhead. rewrite HFor, HCall in Hhead.
    unfold generic_child. destruct (is_field cls k0); [|eauto].
    destruct v0 as [|z|s|items|c a]; eauto.
    - simpl in Hhead. destruct (generic_items_total items Hhead) as [l' ->].
      simpl. eauto.
    - inversion Hhead as [|? ? [x' Hx] _]; subst. eauto. }
  destruct Hchild as [v' Hv'].
  change (generic_fields node_str cls ((k0, v0) :: attrs))
    with (v1 <- generic_child node_str cls k0 v0 ;;
          r1 <- generic_fields node_str cls attrs ;; Ok ((k0, v1) :: r1)).
  rewrite Hv', Hrest. simpl. eauto.
Qed.

Lemma visited_list_attr (cls name : string) (attrs : list (string * value))
  (items : list value) :
  String.eqb cls "For" || String.eqb cls "FunctionCall" = true ->
  (forall k, String.eqb k name = true -> descends cls k = true) ->
  assoc name attrs = Some (VList items) ->
  Forall (fun x => exists x', visit node_str x = Ok x') (visited (VNode cls attrs)) ->
  exists items', visit_items node_str items = Ok items'.
Proof.
  intros Hcls Hdesc Ha H. apply visit_items_total.
  apply assoc_In in Ha as [k [Hk Hin]].
  rewrite Forall_forall in *. intros x Hx. apply H.
  unfold visited. apply in_flat_map. exists (k, VList items).
  split; [exact Hin|]. unfold visited_in. simpl.
  rewrite (Hdesc k Hk), Hcls. exact Hx.
Qed.


Lemma visit_list_attr_inv (name : string) (attrs : list (string * value)) :
  forall v attrs',
    assoc name attrs = Some v ->
    visit_list_attr node_str name attrs = Ok attrs' ->
    exists v', visit_iterable node_str v = Ok v'.
Proof.
  induction attrs as [|[k0 v0] attrs IH]; simpl; intros v attrs' Ha H;
    [discriminate|].
  destruct (String.eqb k0 name).
  - injection Ha as ->. apply bind_Ok in H as [v' [Hv _]]. eauto.
  - apply bind_Ok in H as [rest' [Hrest _]]. eauto.
Qed.

(** What [visit] hands back for a node it passes through, stated once
    for the attribute [name] whose list it translates. *)
Lemma pass_through_list_attr (cls name : string)
  (attrs : list (string * value)) (items : list value)
  (rewrite : value -> res value) :
  NoDup (map fst attrs) ->
  assoc name attrs = Some (VList items) ->
  (forall k, descends cls k = String.eqb k name) ->
  String.eqb cls "For" || String.eqb cls "FunctionCall" = true ->
  (forall attrs', (forall k, String.eqb k name = false ->
                             assoc k attrs' = assoc k attrs) ->
                  rewrite (VNode cls attrs') = Ok (VNode cls attrs')) ->
  (forall node',
      (attrs' <- visit_list_attr node_str name attrs ;; rewrite (VNode cls attrs'))
      = Ok node' ->
      children_translated node_str (descends cls) (VNode cls attrs) node')
  /\ (Forall (fun x => exists x', visit node_str x = Ok x')
             (visited (VNode cls attrs)) ->
      exists node',
        (attrs' <- visit_list_attr node_str name attrs ;; rewrite (VNode cls attrs'))
        = Ok node').
Proof.
  intros Hnd Ha Hdesc Hcls Hrw. split.
  - intros node' H. apply bind_Ok in H as [attrs' [Hattrs H]].
    destruct (visit_list_attr_inv name attrs _ _ Ha Hattrs) as [v' Hv'].
    destruct (visit_list_attr_assoc name attrs _ _ Ha Hv')
      as [attrs'' [Heq [_ Hother]]].
    rewrite Hattrs in Heq. injection Heq as <-.
    rewrite (Hrw attrs' Hother) in H. injection H as <-.
    simpl. split; [reflexivity|].
    pose proof (visit_list_attr_children name attrs items attrs' Hnd Ha Hattrs)
      as HF.
    clear -HF Hdesc. induction HF as [|kv kv' l l' Hkv Hl IHl];
      constructor; [|exact IHl].
    now rewrite Hdesc.
  - intros Hvisited.
    destruct (visited_list_attr cls name attrs items Hcls) as [items' Hitems];
      try assumption.
    { intros k Hk. now rewrite Hdesc. }
    destruct (visit_list_attr_assoc name attrs (VList items) (VList items') Ha)
      as [attrs' [Hattrs [_ Hother]]].
    { simpl. now rewrite Hitems. }
    rewrite Hattrs. cbn [bind]. rewrite (Hrw attrs' Hother). eauto.
Qed.

(** C8, amended.  A node that is neither loop idiom nor a call of
    [distance] or [int] comes back as the same node, with the same
    attributes, where the children under [body] alone (a [For] loop),
    under [args] alone (a [FunctionCall]) or under every field (any
    other class) are translated and every other attribute is as it was;
    and it does come back whenever each value the translator visits
    below it is translated without error. *)
Theorem visit_unrecognized_children
  (cls : string) (attrs : list (string * value)) :
  NoDup (map fst attrs) ->
  unrecognized node_str (VNode cls attrs) ->
  (forall node',
      visit node_str (VNode cls attrs) = Ok node' ->
      children_translated node_str (descends cls) (VNode cls attrs) node')
  /\ (Forall (fun x => exists x', visit node_str x = Ok x')
             (visited (VNode cls attrs)) ->
      exists node', visit node_str (VNode cls attrs) = Ok node').
Proof.
  intros Hnd Hun. rewrite visit_node. unfold unrecognized in Hun.
  destruct (String.eqb cls "For") eqn:HFor;
    [|destruct (String.eqb cls "FunctionCall") eqn:HCall].
  - destruct Hun as [iter [body [Hiter [Hplain Hbody]]]].
    unfold visit_For.
    apply (pass_through_list_attr cls "body" attrs body For_rewrite);
      try assumption.
    + intros k. unfold descends. now rewrite HFor.
    + now rewrite HFor.
    + intros attrs' Hother. apply (For_rewrite_plain cls attrs' iter);
        [|exact Hplain].
      now rewrite (Hother "iter" eq_refl).
  - destruct Hun as [func [args [Hfunc [Hmath Hargs]]]].
    unfold visit_FunctionCall.
    apply (pass_through_list_attr cls "args" attrs args
             (FunctionCall_rewrite node_str)); try assumption.
    + intros k. unfold descends. now rewrite HFor, HCall.
    + rewrite HCall. apply orb_true_r.
    + intros attrs' Hother.
      apply (FunctionCall_rewrite_plain cls attrs' func); [|exact Hmath].
      now rewrite (Hother "func" eq_refl).
  - unfold generic_visit. split.
    + intros node' H. apply bind_Ok in H as [attrs' [Hattrs H]].
      injection H as <-. simpl. split; [reflexivity|].
      apply generic_fields_children in Hattrs.
      clear -Hattrs HFor HCall.
      induction Hattrs as [|kv kv' l l' Hkv Hl IHl]; constructor; [|exact IHl].
      unfold descends. now rewrite HFor, HCall.
    + intros Hvisited.
      destruct (generic_fields_total cls attrs HFor HCall Hvisited)
        as [attrs' ->].
      simpl. eauto.
Qed.

End FrontendFacts.

Section FrontendExamples.
Import Py StencilModel Frontend PyAst.

Lemma visit_For_neighbors_witness :
  Frontend.visit PyAst.node_str neighbors_loop
  = Ok (NeighborPointsLoop (VInt 1) (VStr "G") (VStr "p") (VList [Pass])).
Proof.
  apply (visit_For_neighbors PyAst.node_str
           _ (Name "p" Store)
           (Call (Attribute (Name "G" Load) "neighbors" Load)
                 [Name "x" Load; Num 1])
           (Attribute (Name "G" Load) "neighbors" Load)
           (Name "G" Load) (VList [Name "x" Load; Num 1]) (Num 1)
           (VStr "p") (VStr "G") (VInt 1) [Pass] [Pass]);
    reflexivity.
Defined.

Lemma visit_unrecognized_children_witness :
  (forall node',
      Frontend.visit PyAst.node_str loop_with_else = Ok node' ->
      children_translated PyAst.node_str (descends "For") loop_with_else node')
  /\ (Forall (fun x => exists x', Frontend.visit PyAst.node_str x = Ok x')
             (visited loop_with_else) ->
      exists node', Frontend.visit PyAst.node_str loop_with_else = Ok node').
Proof.
  apply (visit_unrecognized_children PyAst.node_str "For").
  - repeat (apply NoDup_cons; [simpl; intuition congruence|]); apply NoDup_nil.
  - simpl. exists (Call (Name "range" Load) [Num 3]), [Pass].
    repeat split; reflexivity.
Defined.

(** C8, as stated, fails: the loop over [range(3)] is no idiom and comes
    back unchanged, the idiom under its [else] clause untranslated; and
    the [if] statement is no idiom, yet its translation raises, from the
    neighbor loop below it whose level is no literal. *)
Lemma visit_leaves_else_clause :
  unrecognized PyAst.node_str loop_with_else
  /\ Frontend.visit PyAst.node_str loop_with_else = Ok loop_with_else
  /\ ~ children_translated PyAst.node_str (is_field "For")
         loop_with_else loop_with_else
  /\ unrecognized PyAst.node_str guarded_variable_level
  /\ Frontend.visit PyAst.node_str guarded_variable_level
     = Raise (AttributeError "n")
  /\ ~ (forall cls attrs,
           NoDup (map fst attrs) ->
           unrecognized PyAst.node_str (VNode cls attrs) ->
           exists node',
             Frontend.visit PyAst.node_str (VNode cls attrs) = Ok node'
             /\ children_translated PyAst.node_str (is_field cls)
                  (VNode cls attrs) node').
Proof.
  assert (Hun : unrecognized PyAst.node_str loop_with_else).
  { simpl. exists (Call (Name "range" Load) [Num 3]), [Pass].
    repeat split; reflexivity. }
  assert (Hnot : ~ children_translated PyAst.node_str (is_field "For")
                   loop_with_else loop_with_else).
  { simpl. intros [_ H].
    inversion H as [|? ? ? ? _ H1]; subst. clear H.
    inversion H1 as [|? ? ? ? _ H2]; subst. clear H1.
    inversion H2 as [|? ? ? ? _ H3]; subst. clear H2.
    inversion H3 as [|? ? ? ? [_ Helse] _]; subst. clear H3.
    simpl in Helse. destruct Helse as [items' [Heq HF]].
    injection Heq as <-. inversion HF as [|? ? ? ? Hitem _]; subst.
    vm_compute in Hitem. discriminate. }
  split; [exact Hun|]. split; [reflexivity|]. split; [exact Hnot|].
  split; [exact I|]. split; [reflexivity|].
  intros Hclaim.
  edestruct (Hclaim "For") as [node' [Hvisit Hchildren]].
  2: exact Hun.
  { repeat (apply NoDup_cons; [simpl; intuition congruence|]).
    apply NoDup_nil. }
  vm_compute in Hvisit. injection Hvisit as <-. exact (Hnot Hchildren).
Qed.

End FrontendExamples.

(** ** The native execution wrapper *)

Section StencilFunctionFacts.
Import Py Numpy.
Import StencilFunction.

(** C3.  A call of the wrapper invokes the compiled function once, on
    the arguments followed by exactly two more, the output array held
    by the wrapper and then a reference to a new timing scalar; unless
    that invocation raises, the call returns the output array held by
    the wrapper.  Two calls in sequence that return, return the same
    array object. *)
Theorem call_appends_output_and_returns_it
  (self : StencilFunction.t) (args : list carg) (w : StencilFunction.world) :
  let duration := next_addr (mem w) in
  let extended := args ++ [CArray (output self); CByref duration] in
  calls (snd (__call__ self args w)) = calls w ++ [extended]
  /\ fst (__call__ self args w)
     = match _c_function self extended ((duration, [0]) :: cells (mem w)) with
       | Ok _ => Ok (output self)
       | Raise e => Raise e
       end
  /\ (forall args2 o1 o2,
         fst (__call__ self args w) = Ok o1 ->
         fst (__call__ self args2 (snd (__call__ self args w))) = Ok o2 ->
         o1 = output self /\ o2 = output self /\ base o1 = base o2).
Proof.
  intros duration extended.
  assert (Hret : forall a v o, fst (__call__ self a v) = Ok o -> o = output self).
  { intros a v o. unfold __call__.
    destruct (_c_function self _ _); simpl; intros H; [|discriminate].
    now injection H as <-. }
  split; [|split].
  - unfold __call__. fold duration. fold extended.
    destruct (_c_function self extended _); reflexivity.
  - unfold __call__. fold duration. fold extended.
    destruct (_c_function self extended _); reflexivity.
  - intros args2 o1 o2 H1 H2. apply Hret in H1, H2. now subst.
Qed.

End StencilFunctionFacts.

Section NativeExamples.
Import Py Numpy StencilFunction Examples.

(** Two calls of a wrapper around a function that fills the output with
    sevens: each is handed the output array and a new timing scalar
    after its own argument, and each returns the wrapper's output
    array, which holds the sevens. *)
Example native_call_twice :
  let first := __call__ native_function [CArray grid8_f32] native_world in
  let second := __call__ native_function [CArray grid8_f64] (snd first) in
  fst first = Ok out8_f32
  /\ fst second = Ok out8_f32
  /\ calls (snd second)
     = [[CArray grid8_f32; CArray out8_f32; CByref 5];
        [CArray grid8_f64; CArray out8_f32; CByref 6]]
  /\ read (cells (mem (snd second))) (base out8_f32) = Some (repeat 7 64%nat).
Proof. cbv zeta. repeat split. Qed.

End NativeExamples.

(** ** The GPU execution runtime *)

Section OclFacts.
Import Py Numpy.
Import OclStencilFunction.

Lemma reduce_mul_repeat (x : Z) (n : nat) :
  forall a, reduce Z.mul (repeat x n) a = a * x ^ Z.of_nat n.
Proof.
  unfold reduce. induction n as [|n IH]; intros a.
  - simpl. lia.
  - cbn [repeat fold_left]. rewrite IH, Nat2Z.inj_succ, Z.pow_succ_r; lia.
Qed.

Lemma localmem_size_closed (ty : cl_device_type) (g : Z) (n : nat) :
  localmem_size ty g n = 4 * (local ty + 2 * g) ^ Z.of_nat n.
Proof.
  unfold localmem_size. rewrite reduce_mul_repeat. unfold sizeof_c_float.
  now rewrite (Z.mul_comm g 2).
Qed.

Lemma request_Ok (d d' : driver) (c : cl_call) :
  request d c = Ok d' ->
  fault d (trace d) c = None /\ d' = emit d [c].
Proof.
  unfold request. destruct (fault d (trace d) c); [discriminate|].
  intros H. injection H as <-. auto.
Qed.

Lemma request_accepted (d : driver) (c : cl_call) :
  fault d (trace d) c = None -> request d c = Ok (emit d [c]).
Proof. unfold request. now intros ->. Qed.

Lemma accepts_app (f : list cl_call -> cl_call -> option exn)
  (calls : list cl_call) :
  forall history more,
    accepts f history (calls ++ more)
    = accepts f history calls && accepts f (history ++ calls) more.
Proof.
  induction calls as [|c calls IH]; intros history more; simpl.
  - now rewrite app_nil_r.
  - destruct (f history c); [reflexivity|].
    rewrite IH, <- app_assoc. reflexivity.
Qed.

Lemma upload_Ok (args : list pyarg) :
  forall index d bufs d1,
    upload index args d = (Ok bufs, d1) ->
    exists arrays,
      args = map PArray arrays
      /\ bufs = seq (next_buf d) (List.length args)
      /\ next_buf d1 = (next_buf d + List.length args)%nat
      /\ fault d1 = fault d
      /\ trace d1 = trace d ++ upload_calls index (next_buf d) arrays
      /\ accepts (fault d) (trace d)
           (upload_calls index (next_buf d) arrays) = true.
Proof.
  induction args as [|arg args IH]; intros index d bufs d1 H; simpl in H.
  - injection H as <- <-. exists []. simpl.
    rewrite Nat.add_0_r, app_nil_r. repeat split.
  - destruct arg as [a|]; [|discriminate].
    destruct (request d (Upload (next_buf d) a)) as [d0|e] eqn:Hup;
      [|discriminate].
    apply request_Ok in Hup as [Hf0 ->].
    match type of H with
    | context [request ?x ?c] =>
        destruct (request x c) as [d2|e] eqn:Hset; [|discriminate]
    end.
    apply request_Ok in Hset as [Hf1 ->]. simpl in Hf1.
    destruct (upload (S index) args _) as [[bufs'|e] d3] eqn:Hrest;
      [|discriminate].
    injection H as <- <-.
    destruct (IH _ _ _ _ Hrest)
      as [arrays [-> [Hbufs [Hnext [Hfault [Htrace Hacc]]]]]].
    simpl in Hbufs, Hnext, Hfault, Htrace, Hacc.
    exists (a :: arrays). simpl. rewrite Hf0, Hf1.
    repeat rewrite <- app_assoc in Htrace. simpl in Htrace.
    repeat split.
    + now rewrite Hbufs.
    + rewrite Hnext. lia.
    + exact Hfault.
    + exact Htrace.
    + exact Hacc.
Qed.

Lemma upload_accepted (arrays : list ndarray) :
  forall index d,
    accepts (fault d) (trace d) (upload_calls index (next_buf d) arrays)
    = true ->
    upload index (map PArray arrays) d
    = (Ok (seq (next_buf d) (List.length arrays)),
       mk_driver (next_buf d + List.length arrays)
                 (trace d ++ upload_calls index (next_buf d) arrays)
                 (fault d)).
Proof.
  induction arrays as [|a arrays IH]; intros index d Hacc.
  - simpl. rewrite Nat.add_0_r, app_nil_r. now destruct d.
  - cbn [upload_calls accepts] in Hacc.
    destruct (fault d (trace d) (Upload (next_buf d) a)) eqn:Hf0;
      [discriminate|].
    destruct (fault d (trace d ++ [Upload (next_buf d) a])
                (SetArg (Z.of_nat index) (cl_mem_arg (next_buf d))))
      eqn:Hf1; [discriminate|].
    cbn [map upload]. rewrite (request_accepted _ _ Hf0).
    unfold request at 1. cbn [emit trace fault next_buf]. rewrite Hf1.
    cbn [emit trace fault next_buf].
    rewrite (IH (S index)
               (emit (mk_driver (S (next_buf d))
                        (trace d ++ [Upload (next_buf d) a]) (fault d))
                     [SetArg (Z.of_nat index) (cl_mem_arg (next_buf d))])
               Hacc).
    cbn [emit next_buf trace fault List.length seq upload_calls].
    repeat rewrite <- app_assoc. cbn [app].
    replace (S (next_buf d) + List.length arrays)%nat
      with (next_buf d + S (List.length arrays))%nat by lia.
    reflexivity.
Qed.

Lemma unbind_each_id (bufs : list nat) (d : driver) :
  unbind_each bufs d = (bufs, d).
Proof.
  unfold unbind_each. generalize (bufs, d) as state.
  induction bufs as [|b bufs IH]; intros state; simpl; auto.
Qed.

Lemma from_end_1 {A : Type} (l : list A) (x : A) :
  from_end l 1 = Ok x ->
  nth_error l (List.length l - 1) = Some x /\ (1 <= List.length l)%nat.
Proof.
  unfold from_end. destruct (List.length l <? 1)%nat eqn:Hlen; [discriminate|].
  apply Nat.ltb_ge in Hlen.
  destruct (nth_error l (List.length l - 1)) as [y|]; [|discriminate].
  intros H. injection H as ->. auto.
Qed.

Lemma from_end_2 {A : Type} (l : list A) (x : A) :
  from_end l 2 = Ok x ->
  nth_error l (List.length l - 2) = Some x /\ (2 <= List.length l)%nat.
Proof.
  unfold from_end. destruct (List.length l <? 2)%nat eqn:Hlen; [discriminate|].
  apply Nat.ltb_ge in Hlen.
  destruct (nth_error l (List.length l - 2)) as [y|]; [|discriminate].
  intros H. injection H as ->. auto.
Qed.

Lemma removelast_length {A : Type} (l : list A) :
  List.length (removelast l) = (List.length l - 1)%nat.
Proof.
  induction l as [|x [|y l] IH]; simpl in *; auto. rewrite IH. lia.
Qed.

Lemma removelast_nth_error {A : Type} (l : list A) (i : nat) :
  (i < List.length l - 1)%nat ->
  nth_error (removelast l) i = nth_error l i.
Proof.
  revert i. induction l as [|x [|y l] IH]; intros i Hi; simpl in Hi; try lia.
  destruct i as [|i]; [reflexivity|].
  change (nth_error (removelast (y :: l)) i = nth_error (y :: l) i).
  apply IH. simpl. lia.
Qed.

(** Everything a call that returns has done. *)
Lemma call_Ok (self : OclStencilFunction.t) (args : list pyarg) (d : driver)
  (r : ndarray) (self' : OclStencilFunction.t) (d' : driver) :
  __call__ self args d = (Ok r, self', d') ->
  let n := (List.length args - 1)%nat in
  exists arrays a0,
    removelast args = map PArray arrays
    /\ nth_error args 0 = Some (PArray a0)
    /\ nth_error arrays 0 = Some a0
    /\ (2 <= List.length args)%nat
    /\ nth_error arrays (n - 1) = Some r
    /\ self' = mk (device_type self) (repeat cl_mem n ++ [localmem])
                  (global_size self) (ghost_depth self) (output_grid self)
    /\ next_buf d' = (next_buf d + n)%nat
    /\ fault d' = fault d
    /\ trace d'
       = trace d ++ upload_calls 0 (next_buf d) arrays
         ++ [WaitForEvents n;
             SetArg (Z.of_nat (List.length args) - 1)
               (localmem_arg (localmem_size (device_type self)
                                (ghost_depth self) (ndim a0)));
             EnqueueNDRangeKernel (global_size self)
               (repeat (local (device_type self)) (ndim a0));
             WaitForEvents 1;
             Download (next_buf d + (n - 1)) r;
             WaitForEvents 1]
    /\ accepts (fault d) (trace d)
         (invocation_calls self (next_buf d) arrays (List.length args))
       = true.
Proof.
  intros H n. unfold __call__ in H.
  destruct (upload 0 (removelast args) d) as [[ubufs|e] d1] eqn:Hup;
    [|discriminate].
  destruct (upload_Ok _ _ _ _ _ Hup)
    as [arrays [Hargs [Hbufs [Hnext [Hfault [Htrace Hacc]]]]]].
  rewrite removelast_length in Hbufs, Hnext. fold n in Hbufs, Hnext.
  assert (Hn : List.length arrays = n).
  { unfold n. rewrite <- (length_map PArray), <- Hargs.
    apply removelast_length. }
  subst ubufs. rewrite length_seq in H.
  destruct (request d1 (WaitForEvents n)) as [d2|e] eqn:H2; [|discriminate].
  apply request_Ok in H2 as [Hf2 ->].
  destruct (nth_error args 0) as [[a0|]|] eqn:H0; try discriminate.
  match type of H with
  | context [request ?x ?c] =>
      destruct (request x c) as [d3|e] eqn:H3; [|discriminate]
  end.
  apply request_Ok in H3 as [Hf3 ->].
  match type of H with
  | context [request ?x ?c] =>
      destruct (request x c) as [d4|e] eqn:H4; [|discriminate]
  end.
  apply request_Ok in H4 as [Hf4 ->].
  match type of H with
  | context [request ?x ?c] =>
      destruct (request x c) as [d5|e] eqn:H5; [|discriminate]
  end.
  apply request_Ok in H5 as [Hf5 ->].
  destruct (from_end (seq (next_buf d) n) 1) as [out_buf|e] eqn:Hout;
    [|discriminate].
  destruct (from_end args 2) as [[host|]|e] eqn:Hhost; try discriminate.
  match type of H with
  | context [request ?x ?c] =>
      destruct (request x c) as [d6|e] eqn:H6; [|discriminate]
  end.
  apply request_Ok in H6 as [Hf6 ->].
  match type of H with
  | context [request ?x ?c] =>
      destruct (request x c) as [d7|e] eqn:H7; [|discriminate]
  end.
  apply request_Ok in H7 as [Hf7 ->].
  rewrite unbind_each_id in H. injection H as <- <- <-.
  apply from_end_1 in Hout as [Hout Hlen1].
  apply from_end_2 in Hhost as [Hhost Hlen2].
  rewrite length_seq in Hout, Hlen1.
  rewrite nth_error_seq in Hout.
  destruct (n - 1 <? n)%nat eqn:Hlt in Hout; [|discriminate].
  injection Hout as <-.
  assert (Hr : nth_error arrays (n - 1) = Some host).
  { assert (Hr : nth_error (removelast args) (n - 1) = Some (PArray host)).
    { rewrite removelast_nth_error by (unfold n; lia).
      replace (n - 1)%nat with (List.length args - 2)%nat by (unfold n; lia).
      exact Hhost. }
    rewrite Hargs, nth_error_map in Hr.
    destruct (nth_error arrays (n - 1)); simpl in Hr; [|discriminate].
    now injection Hr as ->. }
  assert (Ha0 : nth_error arrays 0 = Some a0).
  { assert (Hr0 : nth_error (removelast args) 0 = Some (PArray a0)).
    { rewrite removelast_nth_error by lia. exact H0. }
    rewrite Hargs, nth_error_map in Hr0.
    destruct (nth_error arrays 0); simpl in Hr0; [|discriminate].
    now injection Hr0 as ->. }
  cbn [emit trace fault next_buf] in *.
  exists arrays, a0.
  split; [exact Hargs|]. split; [reflexivity|]. split; [exact Ha0|].
  split; [exact Hlen2|]. split; [exact Hr|].
  split; [now rewrite removelast_length|].
  split; [exact Hnext|]. split; [exact Hfault|]. split.
  - rewrite Htrace. repeat rewrite <- app_assoc. reflexivity.
  - unfold invocation_calls. rewrite accepts_app, Hacc. cbn [andb].
    rewrite Hn, (nth_error_nth _ _ _ Ha0), (nth_error_nth _ _ _ Hr).
    rewrite Hfault in *. rewrite Htrace in *.
    cbn [accepts]. repeat rewrite <- app_assoc in *. cbn [app] in *.
    rewrite Hf2. repeat (rewrite <- app_assoc; cbn [app]).
    rewrite Hf3. repeat (rewrite <- app_assoc; cbn [app]).
    rewrite Hf4. repeat (rewrite <- app_assoc; cbn [app]).
    rewrite Hf5. repeat (rewrite <- app_assoc; cbn [app]).
    rewrite Hf6. repeat (rewrite <- app_assoc; cbn [app]).
    rewrite Hf7. reflexivity.
Qed.


Lemma upload_calls_SetArg (arrays : list ndarray) :
  forall index buf i a,
    In (SetArg i a) (upload_calls index buf arrays) ->
    Z.of_nat index <= i < Z.of_nat (index + List.length arrays)
    /\ exists b, a = cl_mem_arg b.
Proof.
  induction arrays as [|x arrays IH]; intros index buf i a H; simpl in H;
    [contradiction|].
  destruct H as [H|[H|H]]; [discriminate| |].
  - injection H as <- <-. simpl. split; [lia|eauto].
  - apply IH in H as [Hi Ha]. simpl. split; [lia|exact Ha].
Qed.

Lemma upload_calls_Upload (arrays : list ndarray) :
  forall index buf i a,
    nth_error arrays i = Some a ->
    In (Upload (buf + i) a) (upload_calls index buf arrays).
Proof.
  induction arrays as [|x arrays IH]; intros index buf i a H;
    destruct i as [|i]; simpl in H; try discriminate.
  - injection H as ->. rewrite Nat.add_0_r. now left.
  - simpl. right. right. replace (buf + S i)%nat with (S buf + i)%nat by lia.
    now apply IH.
Qed.

Lemma upload_calls_buffers (arrays : list ndarray) :
  forall index buf b a,
    In (Upload b a) (upload_calls index buf arrays) ->
    (buf <= b < buf + List.length arrays)%nat.
Proof.
  induction arrays as [|x arrays IH]; intros index buf b a H; simpl in H;
    [contradiction|].
  destruct H as [H|[H|H]]; [|discriminate|].
  - injection H as <- _. simpl. lia.
  - apply IH in H. simpl. lia.
Qed.

Lemma upload_calls_no_Download (arrays : list ndarray) :
  forall index buf b a, ~ In (Download b a) (upload_calls index buf arrays).
Proof.
  induction arrays as [|x arrays IH]; intros index buf b a H; simpl in H;
    [contradiction|].
  destruct H as [H|[H|H]]; try discriminate. now apply IH in H.
Qed.

Lemma skipn_issued {A : Type} (before issued : list A) :
  skipn (List.length before) (before ++ issued) = issued.
Proof.
  rewrite skipn_app, skipn_all, Nat.sub_diag. reflexivity.
Qed.

(** C5.  In a call that returns, the kernel slot set last is slot
    [len(args) - 1], the final one of the kernel's argument types and
    the only one of type [localmem]; it is bound to a local-memory
    request of [sizeof(c_float) * (local + 2 * ghost_depth) ^ ndim]
    bytes, [ndim] the rank of the first argument, [local] being 8 on a
    GPU device and 1 otherwise, and [sizeof(c_float)] being 4.  Every
    slot set before it holds a device buffer. *)
Theorem localmem_is_final_kernel_argument
  (self : OclStencilFunction.t) (args : list pyarg) (d : driver)
  (r : ndarray) (self' : OclStencilFunction.t) (d' : driver) :
  __call__ self args d = (Ok r, self', d') ->
  exists a0 before after,
    nth_error args 0 = Some (PArray a0)
    /\ trace d'
       = trace d ++ before
         ++ [SetArg (Z.of_nat (List.length args) - 1)
               (localmem_arg
                  (sizeof_c_float
                   * (local (device_type self) + 2 * ghost_depth self)
                     ^ Z.of_nat (ndim a0)))]
         ++ after
    /\ (forall i a, In (SetArg i a) before ->
                    0 <= i < Z.of_nat (List.length args) - 1
                    /\ exists b, a = cl_mem_arg b)
    /\ (forall i a, ~ In (SetArg i a) after)
    /\ kernel_argtypes self'
       = repeat cl_mem (List.length args - 1) ++ [localmem]
    /\ local (device_type self)
       = (if is_gpu (device_type self) then 8 else 1)
    /\ sizeof_c_float = 4.
Proof.
  intros H. apply call_Ok in H.
  destruct H as [arrays [a0 [Hargs [H0 [_ [Hlen [Hr [-> [_ [_ [Htrace _]]]]]]]]]]].
  exists a0,
    (upload_calls 0 (next_buf d) arrays
     ++ [WaitForEvents (List.length args - 1)]),
    [EnqueueNDRangeKernel (global_size self)
       (repeat (local (device_type self)) (ndim a0));
     WaitForEvents 1;
     Download (next_buf d + (List.length args - 1 - 1)) r;
     WaitForEvents 1].
  split; [exact H0|]. split; [|split; [|split; [|split; [|split]]]].
  - rewrite Htrace, localmem_size_closed. unfold sizeof_c_float.
    repeat rewrite <- app_assoc. reflexivity.
  - intros i a Hin. apply in_app_or in Hin as [Hin|[Hin|[]]]; [|discriminate].
    apply upload_calls_SetArg in Hin as [Hi Ha]. split; [|exact Ha].
    assert (Hl : List.length arrays = (List.length args - 1)%nat).
    { rewrite <- (length_map PArray), <- Hargs. apply removelast_length. }
    lia.
  - intros i a Hin. simpl in Hin.
    destruct Hin as [Hin|[Hin|[Hin|[Hin|[]]]]]; discriminate.
  - reflexivity.
  - reflexivity.
  - reflexivity.
Qed.

(** C4, amended.  A call that returns has created one device buffer per
    argument except the last, each a new one, uploaded from that
    argument, and has downloaded its result from the last of them, the
    buffer uploaded from the output array.  Every buffer the call
    uploads to or downloads from is one the call itself created: no
    buffer of an earlier call is used again, the output's no more than
    the inputs'.  What [finalize] recorded is unchanged; no field of the
    wrapper holds a device buffer. *)
Theorem call_uses_its_own_buffers
  (self : OclStencilFunction.t) (args : list pyarg) (d : driver)
  (r : ndarray) (self' : OclStencilFunction.t) (d' : driver) :
  __call__ self args d = (Ok r, self', d') ->
  let n := (List.length args - 1)%nat in
  let issued := skipn (List.length (trace d)) (trace d') in
  exists arrays,
    removelast args = map PArray arrays
    /\ (forall i a, nth_error arrays i = Some a ->
                    In (Upload (next_buf d + i) a) issued)
    /\ nth_error arrays (n - 1) = Some r
    /\ In (Download (next_buf d + (n - 1)) r) issued
    /\ (forall b a, In (Upload b a) issued ->
                    (next_buf d <= b < next_buf d')%nat)
    /\ (forall b a, In (Download b a) issued ->
                    b = (next_buf d + (n - 1))%nat /\ a = r
                    /\ (next_buf d <= b < next_buf d')%nat)
    /\ next_buf d' = (next_buf d + n)%nat
    /\ (global_size self', ghost_depth self', output_grid self',
        device_type self')
       = (global_size self, ghost_depth self, output_grid self,
          device_type self).
Proof.
  intros H n issued. apply call_Ok in H. fold n in H.
  destruct H as [arrays [a0 [Hargs [H0 [Ha0 [Hlen [Hr [-> [Hnext [_ [Htrace _]]]]]]]]]]].
  assert (Hn : List.length arrays = n).
  { unfold n. rewrite <- (length_map PArray), <- Hargs.
    apply removelast_length. }
  assert (Hissued : issued
            = upload_calls 0 (next_buf d) arrays
              ++ [WaitForEvents n;
                  SetArg (Z.of_nat (List.length args) - 1)
                    (localmem_arg (localmem_size (device_type self)
                                     (ghost_depth self) (ndim a0)));
                  EnqueueNDRangeKernel (global_size self)
                    (repeat (local (device_type self)) (ndim a0));
                  WaitForEvents 1;
                  Download (next_buf d + (n - 1)) r;
                  WaitForEvents 1]).
  { unfold issued. rewrite Htrace. apply skipn_issued. }
  rewrite Hissued. exists arrays.
  split; [exact Hargs|]. split; [|split; [exact Hr|]].
  { intros i a Hi. apply in_or_app. left. now apply upload_calls_Upload. }
  split; [|split; [|split; [|split; [exact Hnext|reflexivity]]]].
  - apply in_or_app. right. simpl. auto 10.
  - intros b a Hin. apply in_app_or in Hin as [Hin|Hin].
    + apply upload_calls_buffers in Hin. lia.
    + simpl in Hin.
      destruct Hin as [Hin|[Hin|[Hin|[Hin|[Hin|[Hin|[]]]]]]]; discriminate.
  - intros b a Hin. apply in_app_or in Hin as [Hin|Hin].
    + now apply upload_calls_no_Download in Hin.
    + simpl in Hin.
      destruct Hin as [Hin|[Hin|[Hin|[Hin|[Hin|[Hin|[]]]]]]];
        try discriminate.
      injection Hin as <- <-. unfold n in *. repeat split; lia.
Qed.

End OclFacts.

Section OclExamples.
Import Py Numpy OclStencilFunction Examples.

Lemma localmem_is_final_kernel_argument_witness :
  sizeof_c_float * (local CL_DEVICE_TYPE_GPU + 2 * 1) ^ Z.of_nat 2 = 400
  /\ exists a0 before after,
      nth_error gpu_args10 0 = Some (PArray a0)
      /\ trace (snd (__call__ gpu_function10 gpu_args10 checking_device))
         = trace checking_device ++ before
           ++ [SetArg (Z.of_nat (List.length gpu_args10) - 1)
                 (localmem_arg
                    (sizeof_c_float
                     * (local (device_type gpu_function10)
                        + 2 * ghost_depth gpu_function10)
                       ^ Z.of_nat (ndim a0)))]
           ++ after
      /\ (forall i a, In (SetArg i a) before ->
                      0 <= i < Z.of_nat (List.length gpu_args10) - 1
                      /\ exists b, a = cl_mem_arg b)
      /\ (forall i a, ~ In (SetArg i a) after)
      /\ kernel_argtypes
           (snd (fst (__call__ gpu_function10 gpu_args10 checking_device)))
         = repeat cl_mem (List.length gpu_args10 - 1) ++ [localmem]
      /\ local (device_type gpu_function10)
         = (if is_gpu (device_type gpu_function10) then 8 else 1)
      /\ sizeof_c_float = 4.
Proof.
  split; [reflexivity|].
  apply (localmem_is_final_kernel_argument
           gpu_function10 gpu_args10 checking_device out10_f32).
  reflexivity.
Defined.

Lemma call_uses_its_own_buffers_witness :
  exists arrays,
    removelast gpu_args10 = map PArray arrays
    /\ (forall i a,
           nth_error arrays i = Some a ->
           In (Upload (next_buf checking_device + i) a)
              (skipn (List.length (trace checking_device))
                 (trace (snd (__call__ gpu_function10 gpu_args10
                                checking_device)))))
    /\ nth_error arrays (List.length gpu_args10 - 1 - 1) = Some out10_f32
    /\ In (Download (next_buf checking_device
                     + (List.length gpu_args10 - 1 - 1)) out10_f32)
          (skipn (List.length (trace checking_device))
             (trace (snd (__call__ gpu_function10 gpu_args10
                            checking_device))))
    /\ (forall b a,
           In (Upload b a)
              (skipn (List.length (trace checking_device))
                 (trace (snd (__call__ gpu_function10 gpu_args10
                                checking_device)))) ->
           (next_buf checking_device <= b
            < next_buf (snd (__call__ gpu_function10 gpu_args10
                               checking_device)))%nat)
    /\ (forall b a,
           In (Download b a)
              (skipn (List.length (trace checking_device))
                 (trace (snd (__call__ gpu_function10 gpu_args10
                                checking_device)))) ->
           b = (next_buf checking_device
                + (List.length gpu_args10 - 1 - 1))%nat
           /\ a = out10_f32
           /\ (next_buf checking_device <= b
               < next_buf (snd (__call__ gpu_function10 gpu_args10
                                  checking_device)))%nat)
    /\ next_buf (snd (__call__ gpu_function10 gpu_args10 checking_device))
       = (next_buf checking_device + (List.length gpu_args10 - 1))%nat
    /\ (global_size
          (snd (fst (__call__ gpu_function10 gpu_args10 checking_device))),
        ghost_depth
          (snd (fst (__call__ gpu_function10 gpu_args10 checking_device))),
        output_grid
          (snd (fst (__call__ gpu_function10 gpu_args10 checking_device))),
        device_type
          (snd (fst (__call__ gpu_function10 gpu_args10 checking_device))))
       = (global_size gpu_function10, ghost_depth gpu_function10,
          output_grid gpu_function10, device_type gpu_function10).
Proof.
  apply (call_uses_its_own_buffers
           gpu_function10 gpu_args10 checking_device out10_f32).
  reflexivity.
Defined.

(** C4, as stated, fails: the output device buffer does not persist.
    On a device that checks its launches, the first call below downloads
    its result from device buffer 1, which it created for the output
    array; the second call on the same wrapper, with the same
    arguments, creates buffers 2 and 3 and downloads from 3.  No buffer
    is downloaded from in both calls. *)
Lemma call_makes_new_output_buffer :
  let c1 := __call__ gpu_function10 gpu_args10 checking_device in
  let c2 := __call__ (snd (fst c1)) gpu_args10 (snd c1) in
  fst (fst c1) = Ok out10_f32
  /\ trace (snd c1)
     = [Upload 0 grid10_f32; SetArg 0 (cl_mem_arg 0);
        Upload 1 out10_f32; SetArg 1 (cl_mem_arg 1);
        WaitForEvents 2;
        SetArg 2 (localmem_arg 400);
        EnqueueNDRangeKernel [8; 8] [8; 8];
        WaitForEvents 1;
        Download 1 out10_f32;
        WaitForEvents 1]
  /\ fst (fst c2) = Ok out10_f32
  /\ trace (snd c2)
     = trace (snd c1)
       ++ [Upload 2 grid10_f32; SetArg 0 (cl_mem_arg 2);
           Upload 3 out10_f32; SetArg 1 (cl_mem_arg 3);
           WaitForEvents 2;
           SetArg 2 (localmem_arg 400);
           EnqueueNDRangeKernel [8; 8] [8; 8];
           WaitForEvents 1;
           Download 3 out10_f32;
           WaitForEvents 1]
  /\ ~ (exists b a1 a2,
           In (Download b a1) (trace (snd c1))
           /\ In (Download b a2)
                 (skipn (List.length (trace (snd c1))) (trace (snd c2)))).
Proof.
  cbv zeta. split; [reflexivity|]. split; [reflexivity|].
  split; [reflexivity|]. split; [reflexivity|].
  intros [b [a1 [a2 [H1 H2]]]].
  vm_compute in H1, H2.
  repeat (destruct H1 as [H1|H1]; try discriminate).
  - injection H1 as <- _.
    repeat (destruct H2 as [H2|H2]; try discriminate).
    exact H2.
  - exact H1.
Qed.

(** On the same device the wrapper finalized for 8 by 8 grids cannot
    run: its launch of 6 by 6 work items does not divide into groups of
    8 by 8, the device reports the error, and the call raises it after
    the uploads, with nothing downloaded. *)
Lemma call_raises_device_error :
  fst (fst (__call__ gpu_function gpu_args checking_device))
  = Raise (Exception "CL_INVALID_WORK_GROUP_SIZE")
  /\ trace (snd (__call__ gpu_function gpu_args checking_device))
     = [Upload 0 grid8_f32; SetArg 0 (cl_mem_arg 0);
        Upload 1 out8_f32; SetArg 1 (cl_mem_arg 1);
        WaitForEvents 2;
        SetArg 2 (localmem_arg 400)].
Proof. split; reflexivity. Qed.

End OclExamples.

(** ** The kernel class *)

Section StencilKernelFacts.
Import Py Numpy StencilKernel Examples.

Lemma index_ValueError (x : string) (l : list string) :
  index x l = Raise ValueError <-> ~ In x l.
Proof.
  induction l as [|y l IH]; simpl.
  - tauto.
  - destruct (String.eqb y x) eqn:Hyx.
    + apply String.eqb_eq in Hyx. split; [discriminate|]. intros H.
      exfalso. apply H. now left.
    + apply String.eqb_neq in Hyx. destruct (index x l) as [i|e].
      * split; [discriminate|]. intros H. exfalso.
        assert (Hin : ~ In x l) by tauto. apply IH in Hin. discriminate.
      * split.
        -- intros H. injection H as ->. intros [Hy|Hin]; [now apply Hyx|].
           now apply (proj1 IH).
        -- intros H. f_equal. assert (Hin : ~ In x l) by tauto.
           apply IH in Hin. now injection Hin.
Qed.

Lemma index_raises_only_ValueError (x : string) (l : list string) (e : exn) :
  index x l = Raise e -> e = ValueError.
Proof.
  induction l as [|y l IH]; simpl.
  - intros H. now injection H.
  - destruct (String.eqb y x); [discriminate|].
    destruct (index x l) as [i|e']; [discriminate|].
    intros H. injection H as <-. now apply IH.
Qed.

Lemma backend_dict_no_Exception (name : string) (msg : string) :
  backend_dict name <> Raise (Exception msg).
Proof.
  unfold backend_dict.
  repeat match goal with
         | |- context [if ?b then _ else _] => destruct b
         end; discriminate.
Qed.

(** [__init__] raises the exception "No kernel method defined."
    exactly when the instance has no attribute named [kernel]; with a
    [kernel] method defined it does not raise it.  Whatever it does, it
    leaves the host memory and the list of builds as they were: the
    check comes before any array is read or anything is compiled. *)
Theorem init_raises_without_kernel
  (names : list string) (backend : string) (testing : bool)
  (w : StencilKernel.world) :
  (fst (__init__ names backend testing w)
   = Raise (Exception "No kernel method defined.")
   <-> ~ In "kernel" names)
  /\ snd (__init__ names backend testing w) = w.
Proof.
  unfold __init__. split.
  - rewrite <- index_ValueError.
    destruct (index "kernel" names) as [i|e] eqn:Hidx.
    + split; [|discriminate]. intros H.
      destruct (backend_dict backend) as [b|e] eqn:Hb; simpl in H;
        [discriminate|].
      injection H as ->. now apply backend_dict_no_Exception in Hb.
    + apply index_raises_only_ValueError in Hidx as ->. tauto.
  - destruct (index "kernel" names) as [i|e].
    + now destruct (backend_dict backend).
    + now destruct e.
Qed.




End StencilKernelFacts.

(** ** The retired interception *)

Section ShadowKernelFacts.
Import Py Numpy StencilKernel PurePython ShadowKernel.




End ShadowKernelFacts.

Section ShadowKernelExamples.
Import Py Numpy StencilKernel PurePython ShadowKernel Examples.

(** A kernel object of the interpreted backend is handed an 8 by 8 grid
    and then a 16 by 16 grid.  The two configurations differ, and
    neither call builds anything: each raises [AttributeError], with
    the output grid it allocated left in the memory. *)
Lemma shadow_kernel_on_shape_change :
  let absent := fun _ _ _ w => (Raise (AttributeError "specialized"), w) in
  let c1 := shadow_kernel fresh_kernel None absent [grid8_f32] idle_world in
  let c2 := shadow_kernel (snd (fst c1)) None absent [grid16_f32] (snd c1) in
  fst (SpecializedStencil.args_to_subconfig fresh_specializer [grid8_f32])
  <> fst (SpecializedStencil.args_to_subconfig fresh_specializer [grid16_f32])
  /\ fst (fst c1) = Raise (AttributeError "pure_python_kernel")
  /\ fst (fst c2) = Raise (AttributeError "pure_python_kernel")
  /\ snd (fst c2) = fresh_kernel
  /\ builds (snd c2) = []
  /\ next_addr (mem (snd c2)) = (next_addr host_memory + 2)%nat.
Proof. cbv zeta. repeat split. discriminate. Qed.

End ShadowKernelExamples.

(** ** The lazy specializer *)

Section SpecializedStencilFacts.
Import Py Numpy SpecializedStencil Examples.

Lemma read_allocated (m : memory) (addr : nat) :
  allocated_below m -> (next_addr m <= addr)%nat -> read (cells m) addr = None.
Proof.
  intros Hwf Hle. destruct (read (cells m) addr) as [c|] eqn:Hr; [|reflexivity].
  apply Hwf in Hr. lia.
Qed.

(** The first build: while the specializer holds no output array,
    [generate_output] allocates a new array, every cell zero, with the
    dtype and shape of the first argument, and keeps it. *)
Lemma generate_output_first (self : SpecializedStencil.t) (first : ndarray)
  (rest : list ndarray) (m : memory) :
  output self = None ->
  allocated_below m ->
  exists out self' m',
    generate_output self (first :: rest) m = (Ok out, self', m')
    /\ output self' = Some out
    /\ dtype_of out = dtype_of first /\ shape out = shape first
    /\ read (cells m) (base out) = None
    /\ read (cells m') (base out) = Some (repeat 0 (size first)).
Proof.
  intros Hnone Hwf. unfold generate_output. rewrite Hnone. simpl.
  eexists _, _, _. split; [reflexivity|]. simpl. rewrite Nat.eqb_refl.
  repeat split. now apply read_allocated.
Qed.

(** Once an output array is held, it is handed out again, whatever the
    arguments, and nothing is allocated. *)
Lemma generate_output_again (self : SpecializedStencil.t) (out : ndarray)
  (args : list ndarray) (m : memory) :
  output self = Some out ->
  generate_output self args m = (Ok out, self, m).
Proof. intros H. unfold generate_output. now rewrite H. Qed.

(** C6 at a change of configuration.  The first build, for an 8 by 8
    grid, allocates a zero-filled 8 by 8 array at a new address.  The
    build for a 16 by 16 grid that follows on the same specializer
    allocates nothing and obtains that same 8 by 8 array. *)
Theorem build_reuses_first_output :
  let first := build fresh_specializer [grid8_f32] host_memory in
  let second := build (snd (fst first)) [grid16_f32] (snd first) in
  fst (fst first) = Ok (mk_ndarray 5 float32 [8; 8])
  /\ read (cells (snd first)) 5 = Some (repeat 0 64%nat)
  /\ fst (fst second) = Ok (mk_ndarray 5 float32 [8; 8])
  /\ snd second = snd first
  /\ shape (mk_ndarray 5 float32 [8; 8]) <> shape grid16_f32.
Proof.
  cbv zeta. repeat split. discriminate.
Qed.

End SpecializedStencilFacts.

Section SpecializedStencilExamples.
Import Py Numpy SpecializedStencil Examples.

Lemma host_memory_allocated : allocated_below host_memory.
Proof.
  intros addr c. unfold host_memory. simpl.
  destruct addr as [|[|[|[|[|addr]]]]]; simpl; intros H;
    [lia|lia|lia|lia|lia|discriminate H].
Defined.

Lemma generate_output_first_witness :
  exists out self' m',
    generate_output fresh_specializer [grid8_f32] host_memory
    = (Ok out, self', m')
    /\ output self' = Some out
    /\ dtype_of out = dtype_of grid8_f32 /\ shape out = shape grid8_f32
    /\ read (cells host_memory) (base out) = None
    /\ read (cells m') (base out) = Some (repeat 0 (size grid8_f32)).
Proof.
  apply (generate_output_first fresh_specializer grid8_f32 [] host_memory).
  - reflexivity.
  - exact host_memory_allocated.
Defined.

Lemma generate_output_again_witness :
  generate_output
    (mk false Backend.StencilCTransformer (Some out8_f32) (Some [grid8_f32]))
    [grid16_f32] host_memory
  = (Ok out8_f32,
     mk false Backend.StencilCTransformer (Some out8_f32) (Some [grid8_f32]),
     host_memory).
Proof.
  apply (generate_output_again
           (mk false Backend.StencilCTransformer (Some out8_f32)
               (Some [grid8_f32]))
           out8_f32 [grid16_f32] host_memory).
  reflexivity.
Defined.

End SpecializedStencilExamples.

Section ConfigurationFacts.
Import Py Numpy SpecializedStencil Examples.

Lemma configs_Ok_cons (x : ndarray) (l : list ndarray)
  (cs : list StencilArgConfig) :
  configs (x :: l) = Ok cs ->
  exists n cs',
    len x = Ok n /\ configs l = Ok cs'
    /\ cs = mk_config n (dtype_of x) (ndim x) (shape x) :: cs'.
Proof.
  simpl. destruct (len x) as [n|e]; [|discriminate].
  destruct (configs l) as [cs'|e]; [|discriminate].
  intros H. injection H as <-. eauto.
Qed.

(** Two argument lists yield equal configurations exactly when their
    descriptors agree element-wise in dtype, ndim and shape: the size
    entry, the first extent, adds nothing. *)
Theorem configurations_equal_iff_same_descriptors
  (s1 s2 : SpecializedStencil.t) (a1 a2 : list ndarray)
  (c1 c2 : list StencilArgConfig) :
  fst (args_to_subconfig s1 a1) = Ok c1 ->
  fst (args_to_subconfig s2 a2) = Ok c2 ->
  (c1 = c2 <-> same_descriptors a1 a2).
Proof.
  unfold args_to_subconfig. simpl. clear s1 s2.
  revert a2 c1 c2. induction a1 as [|x a1 IH]; intros a2 c1 c2 H1 H2.
  - simpl in H1. injection H1 as <-. destruct a2 as [|y a2].
    + simpl in H2. injection H2 as <-. split; [constructor|reflexivity].
    + apply configs_Ok_cons in H2 as [n [cs' [_ [_ ->]]]].
      split; [discriminate|]. intros H. inversion H.
  - apply configs_Ok_cons in H1 as [n [cs1 [Hn [Hcs1 ->]]]].
    destruct a2 as [|y a2].
    + simpl in H2. injection H2 as <-.
      split; [discriminate|]. intros H. inversion H.
    + apply configs_Ok_cons in H2 as [m [cs2 [Hm [Hcs2 ->]]]].
      specialize (IH a2 cs1 cs2 Hcs1 Hcs2). split.
      * intros H. injection H as Hsize Hdtype Hndim Hshape Hrest.
        constructor; [auto|]. now apply IH.
      * intros H. inversion H as [|? ? ? ? [Hdtype [Hndim Hshape]] Hrest]; subst.
        f_equal; [|now apply IH].
        unfold len in Hn, Hm. rewrite Hshape in Hn. rewrite Hn in Hm.
        injection Hm as ->. now rewrite Hdtype, Hndim, Hshape.
Qed.

Lemma configurations_equal_iff_same_descriptors_witness :
  fst (args_to_subconfig fresh_specializer [grid8_f32])
  = fst (args_to_subconfig fresh_specializer [out8_f32])
  /\ ([mk_config 8 float32 2 [8; 8]] = [mk_config 8 float32 2 [8; 8]]
      <-> same_descriptors [grid8_f32] [out8_f32]).
Proof.
  split; [reflexivity|].
  apply (configurations_equal_iff_same_descriptors
           fresh_specializer fresh_specializer [grid8_f32] [out8_f32]);
    reflexivity.
Defined.

End ConfigurationFacts.

(** ** Interior points and the launch geometry *)

Section GeometryFacts.
Import Py Numpy Interior SpecializedStencil Finalize Examples.

Lemma range_length (a b : Z) : List.length (range a b) = Z.to_nat (b - a).
Proof. unfold range. now rewrite length_map, length_seq. Qed.

Lemma cartesian_length (pools : list (list Z)) :
  List.length (cartesian pools)
  = fold_right Nat.mul 1%nat (map (@List.length Z) pools).
Proof.
  induction pools as [|pool rest IH]; [reflexivity|].
  simpl. rewrite <- IH. clear IH.
  induction pool as [|y pool IHp]; [reflexivity|].
  simpl. rewrite length_app, length_map, IHp. reflexivity.
Qed.

Lemma ranges_count (g : Z) (shape : list Z) :
  Z.of_nat
    (fold_right Nat.mul 1%nat
       (map (@List.length Z) (map (fun dim => range g (dim - g)) shape)))
  = fold_right Z.mul 1 (map (fun dim => Z.max 0 (dim - 2 * g)) shape).
Proof.
  induction shape as [|dim shape IH]; [reflexivity|].
  cbn [map fold_right]. rewrite Nat2Z.inj_mul, IH, range_length. f_equal. lia.
Qed.

(** The number of interior points is the product, over the dimensions,
    of the extent less twice the ghost depth, counted as zero where that
    is negative. *)
Theorem interior_points_count (g : Z) (shape : list Z) :
  Z.of_nat (List.length (interior_points g shape))
  = fold_right Z.mul 1 (map (fun dim => Z.max 0 (dim - 2 * g)) shape).
Proof.
  unfold interior_points. rewrite product_cartesian, cartesian_length.
  apply ranges_count.
Qed.

(** The global work size that [finalize] computes for the OpenCL backend
    describes the interior of the first argument: an index is an
    interior point exactly when, shifted down by the ghost depth, it
    lies within the work size along every dimension; and where no extent
    is below twice the ghost depth the number of work items is the
    number of interior points.  An extent below twice the ghost depth
    gives a negative work size. *)
Theorem global_size_is_interior (g : Z) (first : StencilArgConfig)
  (rest : list StencilArgConfig) (gs : list Z) :
  global_size g (first :: rest) = Ok gs ->
  (forall p, In p (interior_points g (cfg_shape first)) <->
             Forall2 (fun i n => 0 <= i - g < n) p gs)
  /\ (Forall (fun dim => 2 * g <= dim) (cfg_shape first) ->
      fold_right Z.mul 1 gs
      = Z.of_nat (List.length (interior_points g (cfg_shape first))))
  /\ (forall dim, In dim (cfg_shape first) -> dim < 2 * g ->
                  exists n, In n gs /\ n < 0).
Proof.
  unfold global_size. intros H.
  assert (Hgs : gs = map (fun dim => dim - 2 * g) (cfg_shape first))
    by congruence.
  subst gs. clear H. split; [|split].
  - intros p. rewrite interior_points_In. unfold interior.
    generalize (cfg_shape first) as shape. intros shape. revert p.
    induction shape as [|dim shape IH]; intros p; cbn [map].
    + split; intros H; inversion H; constructor.
    + destruct p as [|i p]; [split; intros H; inversion H|].
      rewrite !Forall2_cons_iff, IH. intuition lia.
  - intros Hall. unfold interior_points.
    rewrite product_cartesian, cartesian_length, ranges_count.
    induction Hall as [|dim shape Hdim Hall IH]; [reflexivity|].
    cbn [map fold_right]. rewrite IH. f_equal. lia.
  - intros dim Hin Hlt. exists (dim - 2 * g). split; [|lia].
    apply in_map_iff. now exists dim.
Qed.

End GeometryFacts.

Section GeometryExamples.
Import Py Numpy Interior SpecializedStencil Finalize Examples.

Lemma global_size_is_interior_witness :
  (forall p, In p (interior_points 1 [8; 8]) <->
             Forall2 (fun i n => 0 <= i - 1 < n) p [6; 6])
  /\ (Forall (fun dim => 2 * 1 <= dim) [8; 8] ->
      fold_right Z.mul 1 [6; 6]
      = Z.of_nat (List.length (interior_points 1 [8; 8])))
  /\ (forall dim, In dim [8; 8] -> dim < 2 * 1 ->
                  exists n, In n [6; 6] /\ n < 0).
Proof.
  apply (global_size_is_interior 1 (mk_config 8 float32 2 [8; 8]) [] [6; 6]).
  reflexivity.
Defined.

End GeometryExamples.

(** ** More on the frontend translator *)

Section FrontendMore.
Import Py StencilModel Frontend PyAst.
Local Open Scope py_scope.
Variable node_str : value -> string.

(** A [For] node whose iterable is a call through an attribute named
    [interior_points], with a named loop target, is translated to an
    [InteriorPointsLoop] holding the name of the target and the
    translated body. *)
Theorem visit_For_interior_points
  (attrs : list (string * value))
  (target iter func target_id : value) (body body' : list value) :
  let node := VNode "For" attrs in
  getattr node "target" = Ok target ->
  getattr target "id" = Ok target_id ->
  getattr node "iter" = Ok iter ->
  class_of iter = "Call" ->
  getattr iter "func" = Ok func ->
  class_of func = "Attribute" ->
  getattr func "attr" = Ok (VStr "interior_points") ->
  getattr node "body" = Ok (VList body) ->
  visit_items node_str body = Ok body' ->
  visit node_str node = Ok (InteriorPointsLoop target_id (VList body')).
Proof.
  intros node Htarget Hid Hiter Hcall Hfunc Hattribute Hattr Hbody Hitems.
  subst node. rewrite visit_node. simpl String.eqb. cbv iota.
  unfold visit_For.
  assert (Hb : assoc "body" attrs = Some (VList body)).
  { simpl in Hbody. destruct (assoc "body" attrs); [|discriminate].
    now injection Hbody as ->. }
  destruct (visit_list_attr_assoc node_str "body" attrs (VList body)
              (VList body') Hb) as [attrs' [-> [Hb' Hother]]].
  { simpl. now rewrite Hitems. }
  cbn [bind]. unfold For_rewrite.
  assert (Hget : forall k, String.eqb k "body" = false ->
                           getattr (VNode "For" attrs') k
                           = getattr (VNode "For" attrs) k).
  { intros k Hk. simpl. now rewrite (Hother k Hk). }
  assert (Hbody' : getattr (VNode "For" attrs') "body" = Ok (VList body')).
  { simpl. now rewrite Hb'. }
  rewrite (Hget "iter" eq_refl), Hiter. cbn [bind].
  rewrite Hcall. simpl String.eqb. cbv iota.
  rewrite Hfunc. cbn [bind]. rewrite Hattribute. simpl String.eqb. cbv iota.
  rewrite Hattr. cbn [bind]. simpl is_str. cbv iota.
  rewrite (Hget "target" eq_refl), Htarget. cbn [bind].
  rewrite Hid. cbn [bind]. rewrite Hbody'. reflexivity.
Qed.

(** A [FunctionCall] node whose callee prints as [distance] or [int]
    becomes a [MathFunction] holding the callee and the translated
    arguments. *)
Theorem visit_FunctionCall_math
  (attrs : list (string * value)) (func : value) (args args' : list value) :
  let node := VNode "FunctionCall" attrs in
  getattr node "func" = Ok func ->
  math_call node_str func = true ->
  getattr node "args" = Ok (VList args) ->
  visit_items node_str args = Ok args' ->
  visit node_str node = Ok (MathFunction func (VList args')).
Proof.
  intros node Hfunc Hmath Hargs Hitems. subst node.
  rewrite visit_node. simpl String.eqb. cbv iota. unfold visit_FunctionCall.
  assert (Ha : assoc "args" attrs = Some (VList args)).
  { simpl in Hargs. destruct (assoc "args" attrs); [|discriminate].
    now injection Hargs as ->. }
  destruct (visit_list_attr_assoc node_str "args" attrs (VList args)
              (VList args') Ha) as [attrs' [-> [Ha' Hother]]].
  { simpl. now rewrite Hitems. }
  cbn [bind]. unfold FunctionCall_rewrite.
  assert (Hf : getattr (VNode "FunctionCall" attrs') "func" = Ok func).
  { simpl. rewrite (Hother "func" eq_refl). exact Hfunc. }
  rewrite Hf. cbn [bind]. unfold math_call in Hmath. rewrite Hmath.
  simpl getattr. rewrite Ha'. reflexivity.
Qed.

End FrontendMore.

Section FrontendMoreExamples.
Import Py StencilModel Frontend PyAst.

Lemma visit_For_interior_points_witness :
  Frontend.visit PyAst.node_str interior_loop
  = Ok (InteriorPointsLoop (VStr "x")
          (VList [NeighborPointsLoop (VInt 1) (VStr "G") (VStr "p")
                    (VList [Pass])])).
Proof.
  apply (visit_For_interior_points PyAst.node_str
           _ (Name "x" Store)
           (Call (Attribute (Name "self" Load) "interior_points" Load)
                 [Name "G" Load])
           (Attribute (Name "self" Load) "interior_points" Load)
           (VStr "x") [neighbors_loop]);
    reflexivity.
Defined.

Lemma visit_FunctionCall_math_witness :
  Frontend.visit PyAst.node_str
    (FunctionCall (SymbolRef "distance") [Name "p" Load; Name "x" Load])
  = Ok (MathFunction (SymbolRef "distance")
          (VList [Name "p" Load; Name "x" Load])).
Proof.
  apply (visit_FunctionCall_math PyAst.node_str
           _ (SymbolRef "distance") [Name "p" Load; Name "x" Load]);
    reflexivity.
Defined.

End FrontendMoreExamples.

(** ** Translating a translated tree *)

Section TranslateTwice.
Import Py StencilModel Frontend PyAst Auxiliary.
Local Open Scope py_scope.
Variable node_str : value -> string.

Lemma list_sum_In (f : value -> nat) (l : list value) (x : value) :
  In x l -> (f x <= list_sum (map f l))%nat.
Proof.
  induction l as [|y l IH]; simpl; [contradiction|].
  intros [->|Hin]; [lia|]. specialize (IH Hin). lia.
Qed.

Lemma vsize_item (items : list value) (x : value) :
  In x items -> (vsize x < vsize (VList items))%nat.
Proof. intros H. apply (list_sum_In vsize) in H. simpl. lia. Qed.

Lemma vsize_attr (cls : string) (attrs : list (string * value))
  (kv : string * value) :
  In kv attrs -> (vsize (snd kv) < vsize (VNode cls attrs))%nat.
Proof.
  intros H. simpl. apply Nat.lt_succ_r.
  induction attrs as [|kv0 attrs IH]; simpl; [contradiction|].
  destruct H as [->|Hin]; [lia|]. specialize (IH Hin). lia.
Qed.

Lemma For_rewrite_cases (node n' : value) :
  For_rewrite node = Ok n' ->
  n' = node
  \/ (exists a b, n' = InteriorPointsLoop a b)
  \/ (exists a b c d, n' = NeighborPointsLoop a b c d).
Proof.
  unfold For_rewrite. intros H.
  repeat match type of H with
         | bind ?c _ = Ok _ =>
             let x := fresh "x" in
             destruct c as [x|]; cbn [bind] in H; [|discriminate H]
         | (if ?b then _ else _) = Ok _ => destruct b
         end;
    injection H as <-; eauto 8.
Qed.

Lemma FunctionCall_rewrite_cases (node n' : value) :
  FunctionCall_rewrite node_str node = Ok n' ->
  n' = node \/ exists f a, n' = MathFunction f a.
Proof.
  unfold FunctionCall_rewrite. intros H.
  repeat match type of H with
         | bind ?c _ = Ok _ =>
             let x := fresh "x" in
             destruct c as [x|]; cbn [bind] in H; [|discriminate H]
         | (if ?b then _ else _) = Ok _ => destruct b
         end;
    injection H as <-; eauto.
Qed.

(** What [visit] returns is a node. *)
Lemma visit_returns_node (n n' : value) :
  visit node_str n = Ok n' -> exists cls attrs, n' = VNode cls attrs.
Proof.
  destruct n as [| | | |cls attrs]; try discriminate.
  rewrite visit_node.
  destruct (String.eqb cls "For");
    [|destruct (String.eqb cls "FunctionCall")].
  - unfold visit_For. intros H. apply bind_Ok in H as [attrs' [_ H]].
    apply For_rewrite_cases in H as [->|[[a [b ->]]|[a [b [c [d ->]]]]]];
      unfold InteriorPointsLoop, NeighborPointsLoop; eauto.
  - unfold visit_FunctionCall. intros H. apply bind_Ok in H as [attrs' [_ H]].
    apply FunctionCall_rewrite_cases in H as [->|[f [a ->]]];
      unfold MathFunction; eauto.
  - unfold generic_visit. intros H. apply bind_Ok in H as [attrs' [_ H]].
    injection H as <-. eauto.
Qed.

(** A stencil model node is handed back as it is: its attributes are
    not among the fields a traversal descends into. *)
Lemma visit_model_node (a b c d : value) :
  visit node_str (InteriorPointsLoop a b) = Ok (InteriorPointsLoop a b)
  /\ visit node_str (NeighborPointsLoop a b c d)
     = Ok (NeighborPointsLoop a b c d)
  /\ visit node_str (MathFunction a b) = Ok (MathFunction a b).
Proof. repeat split. Qed.

Lemma visit_items_settled (items : list value) :
  forall items',
    (forall x, In x items -> settled node_str x) ->
    visit_items node_str items = Ok items' ->
    visit_items node_str items' = Ok items'.
Proof.
  induction items as [|x items IH]; simpl; intros items' Hs H.
  - now injection H as <-.
  - apply bind_Ok in H as [x' [Hx H]].
    apply bind_Ok in H as [r' [Hr H]]. injection H as <-.
    simpl. rewrite (Hs x (or_introl eq_refl) x' Hx). cbn [bind].
    rewrite (IH r'); auto.
Qed.

Lemma generic_items_settled (items : list value) :
  forall items',
    (forall x, In x items -> settled node_str x) ->
    generic_items node_str items = Ok items' ->
    generic_items node_str items' = Ok items'.
Proof.
  induction items as [|x items IH]; intros items' Hs H.
  - simpl in H. now injection H as <-.
  - change (generic_items node_str (x :: items))
      with (x1 <- generic_item node_str x ;;
            r1 <- generic_items node_str items ;; Ok (x1 :: r1)) in H.
    apply bind_Ok in H as [x' [Hx H]].
    apply bind_Ok in H as [r' [Hr H]]. injection H as <-.
    assert (Hx' : generic_item node_str x' = Ok x').
    { destruct x as [| | | |cls attrs]; unfold generic_item in Hx;
        try (injection Hx as <-; reflexivity).
      destruct (visit_returns_node _ _ Hx) as [c [a ->]].
      unfold generic_item. exact (Hs _ (or_introl eq_refl) _ Hx). }
    change (generic_items node_str (x' :: r'))
      with (x1 <- generic_item node_str x' ;;
            r1 <- generic_items node_str r' ;; Ok (x1 :: r1)).
    rewrite Hx'. cbn [bind]. rewrite (IH r'); auto.
    intros y Hy. apply Hs. now right.
Qed.

Lemma visit_list_attr_settled (name : string) (attrs : list (string * value)) :
  forall attrs',
    (forall kv items x, In kv attrs -> snd kv = VList items -> In x items ->
                        settled node_str x) ->
    visit_list_attr node_str name attrs = Ok attrs' ->
    visit_list_attr node_str name attrs' = Ok attrs'.
Proof.
  induction attrs as [|[k v] attrs IH]; simpl; intros attrs' Hs H;
    [discriminate|].
  destruct (String.eqb k name) eqn:Hk.
  - apply bind_Ok in H as [v' [Hv H]]. injection H as <-.
    simpl. rewrite Hk.
    assert (Hv' : visit_iterable node_str v' = Ok v').
    { destruct v as [| |s|items|]; simpl in Hv; try discriminate.
      - destruct s; [|discriminate]. injection Hv as <-. reflexivity.
      - apply bind_Ok in Hv as [items' [Hitems Hv]]. injection Hv as <-.
        simpl. rewrite (visit_items_settled items items'); [reflexivity| |exact Hitems].
        intros x Hx. apply (Hs (k, VList items) items x); simpl; auto. }
    now rewrite Hv'.
  - apply bind_Ok in H as [rest' [Hrest H]]. injection H as <-.
    simpl. rewrite Hk. rewrite (IH rest'); [reflexivity| |exact Hrest].
    intros kv items x Hin. apply Hs. now right.
Qed.

Lemma generic_fields_settled (cls : string) (attrs : list (string * value)) :
  forall attrs',
    (forall kv, In kv attrs -> settled node_str (snd kv)) ->
    (forall kv items x, In kv attrs -> snd kv = VList items -> In x items ->
                        settled node_str x) ->
    generic_fields node_str cls attrs = Ok attrs' ->
    generic_fields node_str cls attrs' = Ok attrs'.
Proof.
  induction attrs as [|[k v] attrs IH]; intros attrs' Hs Hl H.
  - simpl in H. now injection H as <-.
  - change (generic_fields node_str cls ((k, v) :: attrs))
      with (v1 <- generic_child node_str cls k v ;;
            r1 <- generic_fields node_str cls attrs ;; Ok ((k, v1) :: r1)) in H.
    apply bind_Ok in H as [v' [Hv H]].
    apply bind_Ok in H as [rest' [Hrest H]]. injection H as <-.
    assert (Hv' : generic_child node_str cls k v' = Ok v').
    { unfold generic_child in *. destruct (is_field cls k); [|congruence].
      destruct v as [| | |items|c a]; cbv iota in Hv;
        try (injection Hv as <-; reflexivity).
      - apply bind_Ok in Hv as [items' [Hitems Hv]]. injection Hv as <-.
        rewrite (generic_items_settled items items'); [reflexivity| |exact Hitems].
        intros x Hx. apply (Hl (k, VList items) items x); simpl; auto.
      - destruct (visit_returns_node _ _ Hv) as [c' [a' ->]].
        exact (Hs (k, VNode c a) (or_introl eq_refl) _ Hv). }
    
    change (generic_fields node_str cls ((k, v') :: rest'))
      with (v1 <- generic_child node_str cls k v' ;;
            r1 <- generic_fields node_str cls rest' ;; Ok ((k, v1) :: r1)).
    rewrite Hv'. cbn [bind].
    rewrite (IH rest'); [reflexivity| | |exact Hrest].
    + intros kv Hin. apply Hs. now right.
    + intros kv items x Hin. apply Hl. now right.
Qed.

(** Translating a translated tree changes nothing: whatever [visit]
    returns, [visit] returns it again for it, without error. *)
Theorem visit_idempotent (n n' : value) :
  visit node_str n = Ok n' -> visit node_str n' = Ok n'.
Proof.
  revert n'. change (settled node_str n).
  induction n as [n IH] using (induction_ltof1 _ vsize). unfold ltof in IH.
  intros n' H. destruct n as [| | | |cls attrs]; try discriminate.
  assert (Hattr : forall kv, In kv attrs -> settled node_str (snd kv)).
  { intros kv Hin. apply IH. now apply vsize_attr. }
  assert (Hitem : forall kv items x,
             In kv attrs -> snd kv = VList items -> In x items -> settled node_str x).
  { intros kv items x Hin Hv Hx. apply IH.
    apply Nat.lt_trans with (vsize (snd kv)); [|now apply vsize_attr].
    rewrite Hv. now apply vsize_item. }
  rewrite visit_node in H.
  destruct (String.eqb cls "For") eqn:HFor;
    [|destruct (String.eqb cls "FunctionCall") eqn:HCall].
  - unfold visit_For in H. apply bind_Ok in H as [attrs' [Hattrs H]].
    pose proof (visit_list_attr_settled "body" attrs attrs' Hitem Hattrs) as Hagain.
    destruct (For_rewrite_cases _ _ H) as [->|[[a [b ->]]|[a [b [c [d ->]]]]]].
    + rewrite visit_node, HFor. unfold visit_For. rewrite Hagain. exact H.
    + apply (visit_model_node a b a b).
    + apply (visit_model_node a b c d).
  - unfold visit_FunctionCall in H. apply bind_Ok in H as [attrs' [Hattrs H]].
    pose proof (visit_list_attr_settled "args" attrs attrs' Hitem Hattrs) as Hagain.
    destruct (FunctionCall_rewrite_cases _ _ H) as [->|[f [a ->]]].
    + rewrite visit_node, HFor, HCall. unfold visit_FunctionCall.
      rewrite Hagain. exact H.
    + apply (visit_model_node f a f a).
  - unfold generic_visit in H. apply bind_Ok in H as [attrs' [Hattrs H]].
    injection H as <-. rewrite visit_node, HFor, HCall. unfold generic_visit.
    rewrite (generic_fields_settled cls attrs attrs'); auto.
Qed.

End TranslateTwice.

Section TranslateTwiceExamples.
Import Py StencilModel Frontend PyAst Auxiliary.

Lemma visit_idempotent_witness :
  Frontend.visit PyAst.node_str
    (InteriorPointsLoop (VStr "x")
       (VList [NeighborPointsLoop (VInt 1) (VStr "G") (VStr "p")
                 (VList [Pass])]))
  = Ok (InteriorPointsLoop (VStr "x")
          (VList [NeighborPointsLoop (VInt 1) (VStr "G") (VStr "p")
                    (VList [Pass])])).
Proof.
  apply (visit_idempotent PyAst.node_str interior_loop). reflexivity.
Defined.

End TranslateTwiceExamples.

(** ** More on the GPU execution runtime *)

Section OclMore.
Import Py Numpy OclStencilFunction.

(** A call returns exactly when it is given at least two arguments,
    every argument except the last is an array, and the OpenCL layer
    reports no error for any of the calls the invocation makes, in their
    order.  With fewer arguments, another object in one of those
    places, or an error from the layer, it raises. *)
Theorem call_returns_iff (self : OclStencilFunction.t) (args : list pyarg)
  (d : driver) :
  (exists r self' d', __call__ self args d = (Ok r, self', d'))
  <-> (2 <= List.length args)%nat
      /\ exists arrays,
          removelast args = map PArray arrays
          /\ accepts (fault d) (trace d)
               (invocation_calls self (next_buf d) arrays
                  (List.length args)) = true.
Proof.
  split.
  - intros [r [self' [d' H]]]. apply call_Ok in H.
    destruct H as [arrays [a0 [Hargs [_ [_ [Hlen [_ [_ [_ [_ [_ Hacc]]]]]]]]]]].
    split; [exact Hlen|]. exists arrays. split; [exact Hargs|exact Hacc].
  - intros [Hlen [arrays [Hargs Hacc]]].
    assert (Hn : List.length arrays = (List.length args - 1)%nat).
    { rewrite <- (length_map PArray), <- Hargs. apply removelast_length. }
    assert (Hnth : forall i, (i < List.length args - 1)%nat ->
               nth_error args i
               = Some (PArray (nth i arrays (mk_ndarray 0 float32 [])))).
    { intros i Hi. rewrite <- removelast_nth_error by exact Hi.
      rewrite Hargs, nth_error_map.
      rewrite (nth_error_nth' arrays (mk_ndarray 0 float32 [])) by lia.
      reflexivity. }
    unfold invocation_calls in Hacc. rewrite accepts_app in Hacc.
    apply andb_true_iff in Hacc as [Hup Hacc].
    unfold __call__. rewrite Hargs, (upload_accepted _ _ _ Hup).
    rewrite length_seq, Hn in *.
    set (a0 := nth 0 arrays (mk_ndarray 0 float32 [])) in *.
    set (host := nth (List.length args - 1 - 1) arrays
                   (mk_ndarray 0 float32 [])) in *.
    set (history := trace d ++ upload_calls 0 (next_buf d) arrays) in *.
    cbn [accepts] in Hacc.
    repeat match type of Hacc with
           | context [fault d ?h ?c] =>
               let Hf := fresh "Hf" in
               destruct (fault d h c) eqn:Hf; [discriminate|]
           end.
    unfold request at 1. cbn [emit trace fault next_buf]. rewrite Hf.
    rewrite (Hnth 0%nat ltac:(lia)). fold a0.
    unfold request at 1. cbn [emit trace fault next_buf]. rewrite Hf0.
    unfold request at 1. cbn [emit trace fault next_buf]. rewrite Hf1.
    unfold request at 1. cbn [emit trace fault next_buf]. rewrite Hf2.
    unfold from_end at 1. rewrite length_seq.
    replace (List.length args - 1 <? 1)%nat with false
      by (symmetry; apply Nat.ltb_ge; lia).
    rewrite nth_error_seq.
    replace (List.length args - 1 - 1 <? List.length args - 1)%nat with true
      by (symmetry; apply Nat.ltb_lt; lia).
    unfold from_end.
    replace (List.length args <? 2)%nat with false
      by (symmetry; apply Nat.ltb_ge; lia).
    replace (List.length args - 2)%nat with (List.length args - 1 - 1)%nat
      by lia.
    rewrite (Hnth (List.length args - 1 - 1)%nat ltac:(lia)). fold host.
    unfold request at 1. cbn [emit trace fault next_buf]. rewrite Hf3.
    unfold request at 1. cbn [emit trace fault next_buf]. rewrite Hf4.
    rewrite unbind_each_id. eauto.
Qed.

(** In a call that returns, the device buffer made for argument [i] is
    bound to kernel slot [i], for every argument but the last; and the
    kernel is enqueued over the global size that [finalize] recorded,
    with a local size of [local] along each dimension of the first
    argument, and over nothing else. *)
Theorem call_binds_positionally
  (self : OclStencilFunction.t) (args : list pyarg) (d : driver)
  (r : ndarray) (self' : OclStencilFunction.t) (d' : driver) :
  __call__ self args d = (Ok r, self', d') ->
  (forall i a,
      (i < List.length args - 1)%nat ->
      nth_error args i = Some (PArray a) ->
      In (Upload (next_buf d + i) a) (trace d')
      /\ In (SetArg (Z.of_nat i) (cl_mem_arg (next_buf d + i))) (trace d'))
  /\ exists a0,
      nth_error args 0 = Some (PArray a0)
      /\ In (EnqueueNDRangeKernel (global_size self)
               (repeat (local (device_type self)) (ndim a0)))
            (trace d')
      /\ (forall gs ls,
             In (EnqueueNDRangeKernel gs ls)
                (skipn (List.length (trace d)) (trace d')) ->
             gs = global_size self
             /\ ls = repeat (local (device_type self)) (ndim a0)).
Proof.
  intros H. apply call_Ok in H.
  destruct H as [arrays [a0 [Hargs [H0 [_ [Hlen [Hr [-> [_ [_ [Htrace _]]]]]]]]]]].
  assert (Hslots : forall arrays index buf i a,
             nth_error arrays i = Some a ->
             In (SetArg (Z.of_nat (index + i)) (cl_mem_arg (buf + i)))
                (upload_calls index buf arrays)).
  { clear. induction arrays as [|x arrays IH]; intros index buf i a H;
      destruct i as [|i]; simpl in H; try discriminate.
    - rewrite !Nat.add_0_r. simpl. auto.
    - simpl. right. right.
      replace (index + S i)%nat with (S index + i)%nat by lia.
      replace (buf + S i)%nat with (S buf + i)%nat by lia.
      now apply (IH _ _ _ a). }
  split.
  - intros i a Hi Hnth.
    assert (Ha : nth_error arrays i = Some a).
    { rewrite <- removelast_nth_error in Hnth by exact Hi.
      rewrite Hargs, nth_error_map in Hnth.
      destruct (nth_error arrays i); simpl in Hnth; [|discriminate].
      now injection Hnth as ->. }
    rewrite Htrace. split; apply in_or_app; right; apply in_or_app; left.
    + now apply upload_calls_Upload.
    + apply (Hslots arrays 0%nat (next_buf d) i a Ha).
  - exists a0. split; [exact H0|]. split.
    + rewrite Htrace. apply in_or_app. right. apply in_or_app. right.
      simpl. auto.
    + intros gs ls Hin. rewrite Htrace, skipn_issued in Hin.
      apply in_app_or in Hin as [Hin|Hin].
      * exfalso. revert Hin. generalize 0%nat, (next_buf d).
        clear. intros index buf. revert index buf.
        induction arrays as [|x arrays IH]; intros index buf Hin;
          simpl in Hin; [contradiction|].
        destruct Hin as [Hin|[Hin|Hin]]; try discriminate.
        now apply IH in Hin.
      * simpl in Hin.
        destruct Hin as [Hin|[Hin|[Hin|[Hin|[Hin|[Hin|[]]]]]]];
          try discriminate.
        injection Hin as <- <-. auto.
Qed.

End OclMore.

Section OclMoreExamples.
Import Py Numpy OclStencilFunction Examples.

Lemma call_binds_positionally_witness :
  (forall i a,
      (i < List.length gpu_args10 - 1)%nat ->
      nth_error gpu_args10 i = Some (PArray a) ->
      In (Upload (next_buf checking_device + i) a)
         (trace (snd (__call__ gpu_function10 gpu_args10 checking_device)))
      /\ In (SetArg (Z.of_nat i) (cl_mem_arg (next_buf checking_device + i)))
            (trace (snd (__call__ gpu_function10 gpu_args10 checking_device))))
  /\ exists a0,
      nth_error gpu_args10 0 = Some (PArray a0)
      /\ In (EnqueueNDRangeKernel (global_size gpu_function10)
               (repeat (local (device_type gpu_function10)) (ndim a0)))
            (trace (snd (__call__ gpu_function10 gpu_args10 checking_device)))
      /\ (forall gs ls,
             In (EnqueueNDRangeKernel gs ls)
                (skipn (List.length (trace checking_device))
                   (trace (snd (__call__ gpu_function10 gpu_args10 checking_device)))) ->
             gs = global_size gpu_function10
             /\ ls = repeat (local (device_type gpu_function10)) (ndim a0)).
Proof.
  apply (call_binds_positionally gpu_function10 gpu_args10 checking_device out10_f32
           (snd (fst (__call__ gpu_function10 gpu_args10 checking_device)))
           (snd (__call__ gpu_function10 gpu_args10 checking_device))).
  reflexivity.
Defined.

End OclMoreExamples.

(** ** Construction *)

Section ConstructionFacts.
Import Py Numpy Backend Construction Auxiliary.

Lemma has_name_In (x : string) (names : list string) :
  has_name x names = true <-> In x names.
Proof.
  unfold has_name. rewrite existsb_exists. split.
  - intros [y [Hy Hxy]]. apply String.eqb_eq in Hxy. now subst.
  - intros H. exists x. split; [exact H|apply String.eqb_refl].
Qed.

Lemma compiled_backend_eqb (backend : string) :
  String.eqb backend "c" || String.eqb backend "omp"
  || String.eqb backend "ocl" = true
  <-> compiled_backend backend.
Proof.
  unfold compiled_backend.
  rewrite !orb_true_iff, !String.eqb_eq. tauto.
Qed.

Lemma init_leaves_world (names : list string) (backend : string)
  (testing : bool) (w : StencilKernel.world) :
  snd (StencilKernel.__init__ names backend testing w) = w.
Proof.
  unfold StencilKernel.__init__.
  destruct (StencilKernel.index "kernel" names) as [i|e].
  - now destruct (StencilKernel.backend_dict backend).
  - now destruct e.
Qed.

(** What constructing a kernel object gives, by backend name.  For
    ["python"] it is the object [__init__] sets up, or the exception
    [__init__] raises.  For ["c"], ["omp"] and ["ocl"] it is a
    specializer holding that backend's transformer and no output array,
    [__init__] is not run, and a class without a [kernel] method makes
    the construction raise [AttributeError].  For every other name,
    ["opencl"] among them, the construction returns [None] and raises
    nothing, with or without a [kernel] method.  No case touches the
    host memory or builds anything. *)
Theorem construct_by_backend (names : list string) (backend : string)
  (testing : bool) (parsed : res unit) (w : StencilKernel.world) :
  snd (construct names backend testing parsed w) = w
  /\ (backend = "python" ->
      fst (construct names backend testing parsed w)
      = match fst (StencilKernel.__init__ names backend testing w) with
        | Ok k => Ok (Kernel k)
        | Raise e => Raise e
        end)
  /\ (compiled_backend backend ->
      (~ In "kernel" names ->
       fst (construct names backend testing parsed w)
       = Raise (AttributeError "kernel"))
      /\ (In "kernel" names ->
          parsed = Ok tt ->
          exists b,
            backend_dict backend = Ok b
            /\ StencilKernel.backend_dict backend = Ok (Some b)
            /\ fst (construct names backend testing parsed w)
               = Ok (Specializer (SpecializedStencil.mk testing b None None))))
  /\ (backend <> "python" -> ~ compiled_backend backend ->
      fst (construct names backend testing parsed w) = Ok NoObject)
  /\ fst (construct names "opencl" testing parsed w) = Ok NoObject.
Proof.
  assert (Hinit : snd (StencilKernel.__init__ names backend testing w) = w).
  { apply init_leaves_world. }
  split; [|split; [|split; [|split]]].
  - unfold construct. destruct (String.eqb backend "python").
    + destruct (StencilKernel.__init__ names backend testing w) as [[k|e] w'];
        simpl in *; now subst.
    + destruct (String.eqb backend "c" || String.eqb backend "omp"
                || String.eqb backend "ocl"); [|reflexivity].
      now destruct (SpecializedStencil__init__ names backend testing parsed).
  - intros ->. unfold construct. simpl String.eqb. cbv iota.
    now destruct (StencilKernel.__init__ names "python" testing w) as [[k|e] w'].
  - intros Hc. split.
    + intros Hno.
      assert (Hn : has_name "kernel" names = false).
      { apply not_true_is_false. now rewrite has_name_In. }
      destruct Hc as [-> | [-> | ->]]; unfold construct, SpecializedStencil__init__;
        simpl; now rewrite Hn.
    + intros Hin ->. apply has_name_In in Hin.
      destruct Hc as [-> | [-> | ->]]; unfold construct, SpecializedStencil__init__;
        simpl; rewrite Hin; eexists; repeat split; reflexivity.
  - intros Hpy Hnc. unfold construct.
    apply String.eqb_neq in Hpy. rewrite Hpy.
    destruct (String.eqb backend "c" || String.eqb backend "omp"
              || String.eqb backend "ocl") eqn:Hb; [|reflexivity].
    apply compiled_backend_eqb in Hb. contradiction.
  - reflexivity.
Qed.

End ConstructionFacts.

Section ConstructionChecks.
Import Py Numpy Backend Construction Auxiliary.

Lemma index_In (x : string) (names : list string) :
  In x names -> exists i, StencilKernel.index x names = Ok i.
Proof.
  intros Hin. destruct (StencilKernel.index x names) as [i|e] eqn:Hidx;
    [eauto|].
  pose proof (index_raises_only_ValueError _ _ _ Hidx) as ->.
  apply index_ValueError in Hidx. contradiction.
Qed.

(** C9.  What construction does about a missing [kernel] method, by
    backend name.  For ["python"] it raises the exception
    "No kernel method defined." of [__init__]; for ["c"], ["omp"] and
    ["ocl"], where [__init__] is not run, it raises the
    [AttributeError] of reading [kernel.kernel] in the constructor of
    the specializer.  For every other backend name, ["opencl"] among
    them, it raises nothing: [__new__] falls off its end and the
    construction gives [None].  With a [kernel] method, and a kernel
    that parses, no construction raises.  In every case the host memory
    and the builds are as before. *)
Theorem construct_without_kernel (names : list string) (backend : string)
  (testing : bool) (parsed : res unit) (w : StencilKernel.world) :
  snd (construct names backend testing parsed w) = w
  /\ (~ In "kernel" names ->
      (backend = "python" ->
       fst (construct names backend testing parsed w)
       = Raise (Exception "No kernel method defined."))
      /\ (compiled_backend backend ->
          fst (construct names backend testing parsed w)
          = Raise (AttributeError "kernel"))
      /\ (backend <> "python" -> ~ compiled_backend backend ->
          fst (construct names backend testing parsed w) = Ok NoObject)
      /\ fst (construct names "opencl" testing parsed w) = Ok NoObject)
  /\ (In "kernel" names -> parsed = Ok tt ->
      exists o, fst (construct names backend testing parsed w) = Ok o).
Proof.
  assert (Hother : backend <> "python" -> ~ compiled_backend backend ->
                   fst (construct names backend testing parsed w)
                   = Ok NoObject).
  { intros Hpy Hnc. unfold construct.
    apply String.eqb_neq in Hpy. rewrite Hpy.
    destruct (String.eqb backend "c" || String.eqb backend "omp"
              || String.eqb backend "ocl") eqn:Hb; [|reflexivity].
    apply compiled_backend_eqb in Hb. contradiction. }
  split; [|split].
  - unfold construct. destruct (String.eqb backend "python").
    + pose proof (init_leaves_world names backend testing w) as Hinit.
      destruct (StencilKernel.__init__ names backend testing w) as [[k|e] w'];
        simpl in *; now subst.
    + destruct (String.eqb backend "c" || String.eqb backend "omp"
                || String.eqb backend "ocl"); [|reflexivity].
      now destruct (SpecializedStencil__init__ names backend testing parsed).
  - intros Hno. split; [|split; [|split; [exact Hother|reflexivity]]].
    + intros ->. unfold construct, StencilKernel.__init__.
      simpl String.eqb. cbv iota.
      apply index_ValueError in Hno. now rewrite Hno.
    + intros Hc.
      assert (Hn : has_name "kernel" names = false).
      { apply not_true_is_false. now rewrite has_name_In. }
      destruct Hc as [-> | [-> | ->]];
        unfold construct, SpecializedStencil__init__; simpl; now rewrite Hn.
  - intros Hin ->.
    destruct (String.eqb backend "python") eqn:Hpy.
    + apply String.eqb_eq in Hpy as ->.
      destruct (index_In _ _ Hin) as [i Hi].
      unfold construct, StencilKernel.__init__. simpl String.eqb. cbv iota.
      rewrite Hi. eexists. reflexivity.
    + destruct (String.eqb backend "c" || String.eqb backend "omp"
                || String.eqb backend "ocl") eqn:Hb.
      * apply has_name_In in Hin. apply compiled_backend_eqb in Hb.
        destruct Hb as [-> | [-> | ->]];
          unfold construct, SpecializedStencil__init__; simpl;
          rewrite Hin; eexists; reflexivity.
      * unfold construct. rewrite Hpy, Hb. eexists. reflexivity.
Qed.

End ConstructionChecks.

(** ** Finalization *)

Section FinalizeFacts.
Import Py Numpy Backend SpecializedStencil Finalize.

Lemma param_types_Ok (backend : transformer)
  (arg_cfg : list StencilArgConfig) (output : ndarray) :
  exists types, param_types backend arg_cfg output = Ok types.
Proof.
  unfold param_types, array_types.
  destruct backend; eauto.
  destruct arg_cfg; simpl; eauto.
Qed.

(** The signature of the entry point: one array parameter per
    configured input, in order, then the output array's, then one
    trailing parameter, a float pointer for the native backends and a
    copy of the first parameter's type for OpenCL.  It is always
    defined: with no input the first parameter is the output's. *)
Theorem param_types_layout (backend : transformer)
  (arg_cfg : list StencilArgConfig) (output : ndarray) :
  exists types,
    param_types backend arg_cfg output = Ok types
    /\ List.length types = (List.length arg_cfg + 2)%nat
    /\ (forall i c, nth_error arg_cfg i = Some c ->
                    nth_error types i
                    = Some (ndpointer (cfg_dtype c) (cfg_ndim c) (cfg_shape c)))
    /\ nth_error types (List.length arg_cfg)
       = Some (ndpointer (dtype_of output) (ndim output) (shape output))
    /\ nth_error types (S (List.length arg_cfg))
       = match backend with
         | StencilOclTransformer => nth_error types 0
         | _ => Some POINTER_c_float
         end.
Proof.
  assert (Hlen : List.length (array_types arg_cfg output)
                 = S (List.length arg_cfg)).
  { unfold array_types. rewrite length_app, length_map. simpl. lia. }
  assert (Hin : forall i c, nth_error arg_cfg i = Some c ->
                  nth_error (array_types arg_cfg output) i
                  = Some (ndpointer (cfg_dtype c) (cfg_ndim c) (cfg_shape c))).
  { intros i c Hc. unfold array_types.
    rewrite nth_error_app1.
    - now rewrite nth_error_map, Hc.
    - rewrite length_map. apply nth_error_Some. congruence. }
  assert (Hout : nth_error (array_types arg_cfg output) (List.length arg_cfg)
                 = Some (ndpointer (dtype_of output) (ndim output)
                           (shape output))).
  { unfold array_types. rewrite nth_error_app2; rewrite length_map; [|lia].
    now rewrite Nat.sub_diag. }
  assert (Hext : forall x,
             List.length (array_types arg_cfg output ++ [x])
             = (List.length arg_cfg + 2)%nat
             /\ (forall i c, nth_error arg_cfg i = Some c ->
                   nth_error (array_types arg_cfg output ++ [x]) i
                   = Some (ndpointer (cfg_dtype c) (cfg_ndim c) (cfg_shape c)))
             /\ nth_error (array_types arg_cfg output ++ [x])
                  (List.length arg_cfg)
                = Some (ndpointer (dtype_of output) (ndim output)
                          (shape output))
             /\ nth_error (array_types arg_cfg output ++ [x])
                  (S (List.length arg_cfg)) = Some x).
  { intros x. split; [|split; [|split]].
    - rewrite length_app, Hlen. simpl. lia.
    - intros i c Hc. rewrite nth_error_app1; [now apply Hin|].
      rewrite Hlen. assert (i < List.length arg_cfg)%nat; [|lia].
      apply nth_error_Some. congruence.
    - rewrite nth_error_app1; [exact Hout|]. rewrite Hlen. lia.
    - rewrite nth_error_app2; rewrite Hlen; [|lia].
      now rewrite Nat.sub_diag. }
  unfold param_types.
  destruct backend.
  - exists (array_types arg_cfg output ++ [POINTER_c_float]).
    split; [reflexivity|]. apply Hext.
  - exists (array_types arg_cfg output ++ [POINTER_c_float]).
    split; [reflexivity|]. apply Hext.
  - destruct (array_types arg_cfg output) as [|first types] eqn:Harr;
      [discriminate|].
    exists ((first :: types) ++ [first]). split; [reflexivity|].
    destruct (Hext first) as [H1 [H2 [H3 H4]]].
    repeat split; assumption.
Qed.

Lemma build_keeps (self : SpecializedStencil.t) (args : list ndarray)
  (m : memory) (out : ndarray) (self' : SpecializedStencil.t) (m' : memory) :
  build self args m = (Ok out, self', m') ->
  output self' = Some out /\ backend self' = backend self.
Proof.
  unfold build, args_to_subconfig, transform_output, generate_output.
  destruct (configs args) as [cs|e]; [|discriminate]. simpl.
  destruct (output self) as [o|] eqn:Ho.
  - intros H. injection H as <- <- <-. simpl. auto.
  - destruct args as [|first rest]; [discriminate|].
    intros H. injection H as <- <- <-. simpl. auto.
Qed.

(** From build to call, on a native backend: [finalize] wraps the array
    that the build obtained, and every call of the wrapper that returns,
    returns that array, whatever arguments the call is given.  A
    specializer that holds no output array cannot be finalized. *)
Theorem native_calls_return_built_output
  (self : SpecializedStencil.t) (args : list ndarray) (m : memory)
  (out : ndarray) (self' : SpecializedStencil.t) (m' : memory)
  (arg_cfg : list StencilArgConfig) (ghost_depth : Z)
  (compiled : StencilFunction.c_function)
  (devices : list OclStencilFunction.cl_device_type) :
  backend self <> StencilOclTransformer ->
  build self args m = (Ok out, self', m') ->
  exists fn,
    finalize self' arg_cfg ghost_depth compiled devices = Ok (Native fn)
    /\ StencilFunction.output fn = out
    /\ (forall call_args w r w',
           StencilFunction.__call__ fn call_args w = (Ok r, w') -> r = out)
    /\ (output self = None ->
        finalize self arg_cfg ghost_depth compiled devices
        = Raise (AttributeError "dtype")).
Proof.
  intros Hnative Hbuild.
  destruct (build_keeps _ _ _ _ _ _ Hbuild) as [Hout Hback].
  exists (StencilFunction.finalize compiled out).
  split; [|split; [reflexivity|split]].
  - unfold finalize. rewrite Hout, Hback.
    destruct (param_types_Ok (backend self) arg_cfg out) as [types ->].
    destruct (backend self); [reflexivity|reflexivity|contradiction].
  - intros call_args w r w'. unfold StencilFunction.__call__.
    destruct (StencilFunction._c_function _ _ _); intros H; [|discriminate].
    now injection H as <- _.
  - intros Hnone. unfold finalize. now rewrite Hnone.
Qed.

End FinalizeFacts.

Section FinalizeExamples.
Import Py Numpy Backend SpecializedStencil Finalize Examples.

Lemma native_calls_return_built_output_witness :
  exists fn,
    finalize
      (snd (fst (build fresh_specializer [grid8_f32] host_memory)))
      [mk_config 8 float32 2 [8; 8]] 1 fill_seven [] = Ok (Native fn)
    /\ StencilFunction.output fn = mk_ndarray 5 float32 [8; 8]
    /\ (forall call_args w r w',
           StencilFunction.__call__ fn call_args w = (Ok r, w') ->
           r = mk_ndarray 5 float32 [8; 8])
    /\ (output fresh_specializer = None ->
        finalize fresh_specializer [mk_config 8 float32 2 [8; 8]] 1
          fill_seven []
        = Raise (AttributeError "dtype")).
Proof.
  apply (native_calls_return_built_output
           fresh_specializer [grid8_f32] host_memory
           (mk_ndarray 5 float32 [8; 8])
           (snd (fst (build fresh_specializer [grid8_f32] host_memory)))
           (snd (build fresh_specializer [grid8_f32] host_memory))).
  - discriminate.
  - reflexivity.
Defined.

End FinalizeExamples.

(** ** The argument configuration *)

Section SubconfigFacts.
Import Py Numpy Backend SpecializedStencil.

(** [args_to_subconfig] records the arguments on the specializer in
    every case, and fails exactly when some argument is a
    zero-dimensional array, with a [TypeError] from taking its
    length. *)
Theorem args_to_subconfig_fails_on_scalars
  (self : SpecializedStencil.t) (args : list ndarray) :
  SpecializedStencil.args (snd (args_to_subconfig self args)) = Some args
  /\ output (snd (args_to_subconfig self args)) = output self
  /\ ((exists e, fst (args_to_subconfig self args) = Raise e)
      <-> Exists (fun a => shape a = []) args)
  /\ (forall e, fst (args_to_subconfig self args) = Raise e -> e = TypeError).
Proof.
  unfold args_to_subconfig. simpl. split; [reflexivity|].
  split; [reflexivity|]. split.
  - induction args as [|a args IH]; simpl.
    + split; [intros [e H]; discriminate|intros H; inversion H].
    + unfold len. destruct (shape a) as [|d s] eqn:Hs.
      * split; [intros _; now left|eauto].
      * destruct (configs args) as [cs|e].
        -- split; [intros [e H]; discriminate|].
           intros H. inversion H as [? ? Ha|? ? Hrest]; subst; [congruence|].
           apply IH in Hrest as [e He]. discriminate.
        -- split; [|eauto]. intros _. right. apply IH. eauto.
  - induction args as [|a args IH]; simpl; intros e H; [discriminate|].
    unfold len in H. destruct (shape a); [now injection H|].
    destruct (configs args) as [cs|e']; [discriminate|].
    injection H as <-. now apply IH.
Qed.

End SubconfigFacts.

(** ** The interpreted path *)

Section PurePythonFacts.
Import Py Numpy PurePython.

(** A call on the interpreted path that returns, returns an array
    allocated by that call, with the dtype and shape of the first
    argument; the kernel method was run on the arguments followed by
    that array, whose cells were zero.  So, unlike the compiled
    wrapper, two calls in sequence return two different arrays, as long
    as the kernel method releases no address.  Without arguments the
    call raises [IndexError], and the memory is as before. *)
Theorem pure_python_allocates_per_call (kernel : kernel_method)
  (a1 a2 : list ndarray) (m m1 m2 : memory) (o1 o2 : ndarray) :
  allocated_below m ->
  (forall args x y, kernel args x = Ok y -> (next_addr x <= next_addr y)%nat) ->
  pure_python kernel a1 m = (Ok o1, m1) ->
  pure_python kernel a2 m1 = (Ok o2, m2) ->
  (exists first rest,
      a1 = first :: rest
      /\ o1 = mk_ndarray (next_addr m) (dtype_of first) (shape first)
      /\ read (cells m) (base o1) = None
      /\ read (cells (snd (zeros_like first m))) (base o1)
         = Some (repeat 0 (size first))
      /\ kernel (a1 ++ [o1]) (snd (zeros_like first m)) = Ok m1)
  /\ base o1 <> base o2
  /\ pure_python kernel [] m = (Raise IndexError, m).
Proof.
  intros Hwf Hmono H1 H2. unfold pure_python in H1, H2.
  destruct a1 as [|first rest]; [discriminate|].
  destruct a2 as [|first2 rest2]; [discriminate|].
  unfold zeros_like in H1. cbv beta iota zeta in H1.
  match type of H1 with
  | context [kernel ?a ?b] =>
      destruct (kernel a b) as [k1|e] eqn:Hk1; [|discriminate]
  end.
  injection H1 as <- <-.
  unfold zeros_like in H2. cbv beta iota zeta in H2.
  match type of H2 with
  | context [kernel ?a ?b] =>
      destruct (kernel a b) as [k2|e] eqn:Hk2; [|discriminate]
  end.
  injection H2 as <- <-.
  split; [|split; [|reflexivity]].
  - exists first, rest. simpl. rewrite Nat.eqb_refl.
    repeat split; auto.
    destruct (read (cells m) (next_addr m)) as [c|] eqn:Hr; [|reflexivity].
    apply Hwf in Hr. lia.
  - simpl. apply Hmono in Hk1. simpl in Hk1. lia.
Qed.

(** The number under the square root in [distance] is never negative,
    so the root is always defined.  Computing it fails exactly when the
    second point has fewer coordinates than the first; coordinates of
    the second point beyond the length of the first are ignored.  For
    points of equal length it is symmetric, and it is zero exactly when
    the points are equal. *)
Theorem squared_distance_properties (x y : list Z) :
  (squared_distance x y = Raise IndexError
   <-> (List.length y < List.length x)%nat)
  /\ (forall r, squared_distance x y = Ok r ->
                0 <= r
                /\ squared_distance x (firstn (List.length x) y) = Ok r)
  /\ (List.length x = List.length y ->
      squared_distance x y = squared_distance y x
      /\ (squared_distance x y = Ok 0 <-> x = y)).
Proof.
  assert (Hsum : forall l a, fold_left Z.add l a = a + fold_left Z.add l 0).
  { induction l as [|z l IH]; intros a; simpl; [lia|].
    rewrite (IH (a + z)), (IH z). lia. }
  assert (Hnonneg : forall x y l, squares x y = Ok l ->
                                  Forall (fun z => 0 <= z) l).
  { clear. induction x as [|a x IH]; intros [|b y] l H; simpl in H;
      try discriminate; try (injection H as <-; constructor).
    destruct (squares x y) as [rest|e] eqn:Hrest; [|discriminate].
    injection H as <-. constructor; [nia|now apply (IH y)]. }
  assert (Hfold : forall l, Forall (fun z => 0 <= z) l ->
                            0 <= fold_left Z.add l 0
                            /\ (fold_left Z.add l 0 = 0 ->
                                Forall (fun z => z = 0) l)).
  { induction 1 as [|z l Hz Hl [IH1 IH2]]; simpl.
    - split; [lia|constructor].
    - rewrite Hsum. split; [lia|]. intros H0.
      constructor; [lia|apply IH2; lia]. }
  split; [|split].
  - unfold squared_distance. revert y.
    induction x as [|a x IH]; intros [|b y]; simpl;
      try (split; [discriminate|lia]); [split; [lia|reflexivity]|].
    specialize (IH y). destruct (squares x y) as [rest|e].
    + split; [discriminate|]. intros H.
      assert (H' : (List.length y < List.length x)%nat) by lia.
      apply IH in H'. discriminate.
    + split.
      * intros H. injection H as ->.
        assert (H' : (List.length y < List.length x)%nat) by now apply IH.
        lia.
      * intros H. assert (H' : (List.length y < List.length x)%nat) by lia.
        apply IH in H'. now injection H' as ->.
  - intros r H. unfold squared_distance in *.
    destruct (squares x y) as [l|e] eqn:Hl; [|discriminate].
    injection H as <-. split.
    + apply Hfold. now apply (Hnonneg x y).
    + assert (Hfirst : squares x (firstn (List.length x) y) = Ok l).
      { clear -Hl. revert y l Hl.
        induction x as [|a x IH]; intros [|b y] l H; simpl in *;
          try discriminate; try exact H.
        destruct (squares x y) as [rest|e] eqn:Hrest; [|discriminate].
        now rewrite (IH y rest Hrest). }
      now rewrite Hfirst.
  - intros Hlen. split.
    + unfold squared_distance.
      assert (Hsq : squares x y = squares y x).
      { clear -Hlen. revert y Hlen.
        induction x as [|a x IH]; intros [|b y] Hlen; simpl in *;
          try discriminate; [reflexivity|].
        rewrite (IH y) by lia. destruct (squares y x); [|reflexivity].
        do 2 f_equal. nia. }
      now rewrite Hsq.
    + unfold squared_distance. split.
      * intros H. destruct (squares x y) as [l|e] eqn:Hl; [|discriminate].
        injection H as H0.
        pose proof (proj2 (Hfold l (Hnonneg x y l Hl)) H0) as Hzero.
        clear -Hl Hzero Hlen. revert y l Hl Hzero Hlen.
        induction x as [|a x IH]; intros [|b y] l Hl Hzero Hlen; simpl in *;
          try discriminate; [reflexivity|].
        destruct (squares x y) as [rest|e] eqn:Hrest; [|discriminate].
        injection Hl as <-. inversion Hzero as [|? ? Hab Hrest0]; subst.
        f_equal; [nia|]. apply (IH y rest); auto.
      * intros <-. assert (Hself : exists l, squares x x = Ok l
                                      /\ Forall (fun z => z = 0) l).
        { clear. induction x as [|a x [l [Hl Hz]]]; simpl.
          - exists []. auto.
          - rewrite Hl. exists ((a - a) ^ 2 :: l). split; [reflexivity|].
            constructor; [|exact Hz]. rewrite Z.sub_diag. reflexivity. }
        destruct Hself as [l [-> Hz]]. f_equal.
        clear -Hz. induction Hz as [|z l -> Hl IH]; simpl; auto.
Qed.

End PurePythonFacts.

Section PurePythonExamples.
Import Py Numpy PurePython Examples Auxiliary.

Lemma pure_python_allocates_per_call_witness :
  (exists first rest,
      [grid8_f32] = first :: rest
      /\ mk_ndarray 5 float32 [8; 8]
         = mk_ndarray (next_addr host_memory) (dtype_of first) (shape first)
      /\ read (cells host_memory) (base (mk_ndarray 5 float32 [8; 8])) = None
      /\ read (cells (snd (zeros_like first host_memory)))
           (base (mk_ndarray 5 float32 [8; 8]))
         = Some (repeat 0 (size first))
      /\ idle_kernel ([grid8_f32] ++ [mk_ndarray 5 float32 [8; 8]])
           (snd (zeros_like first host_memory))
         = Ok (snd (pure_python idle_kernel [grid8_f32] host_memory)))
  /\ base (mk_ndarray 5 float32 [8; 8]) <> base (mk_ndarray 6 float64 [8; 8])
  /\ pure_python idle_kernel [] host_memory = (Raise IndexError, host_memory).
Proof.
  apply (pure_python_allocates_per_call idle_kernel
           [grid8_f32] [grid8_f64] host_memory
           (snd (pure_python idle_kernel [grid8_f32] host_memory))
           (snd (pure_python idle_kernel [grid8_f64]
                   (snd (pure_python idle_kernel [grid8_f32] host_memory))))
           (mk_ndarray 5 float32 [8; 8]) (mk_ndarray 6 float64 [8; 8])).
  - exact host_memory_allocated.
  - intros args x y H. injection H as <-. lia.
  - reflexivity.
  - reflexivity.
Defined.

End PurePythonExamples.

(** ** Sequences of calls *)

Section BuildSequenceFacts.
Import Py Numpy SpecializedStencil Sequences.

Lemma build_step (self : SpecializedStencil.t) (args : list ndarray)
  (m : memory) :
  match output self with
  | Some o =>
      (fst (fst (build self args m)) = Ok o
       \/ exists e, fst (fst (build self args m)) = Raise e)
      /\ output (snd (fst (build self args m))) = Some o
      /\ snd (build self args m) = m
  | None =>
      (exists a,
          fst (fst (build self args m)) = Ok a
          /\ output (snd (fst (build self args m))) = Some a
          /\ next_addr (snd (build self args m)) = S (next_addr m))
      \/ ((exists e, fst (fst (build self args m)) = Raise e)
          /\ output (snd (fst (build self args m))) = None
          /\ snd (build self args m) = m)
  end.
Proof.
  destruct (output self) as [o|] eqn:Ho;
    unfold build, args_to_subconfig, transform_output, generate_output;
    destruct (configs args) as [cs|e]; cbn; rewrite ?Ho; cbn.
  - auto.
  - eauto.
  - destruct args as [|first rest]; cbn.
    + right. eauto.
    + left. eauto.
  - right. eauto.
Qed.

(** Whatever sequence of builds a specializer goes through, every build
    that succeeds obtains one and the same output array, the one the
    first successful build allocated (or the one the specializer
    already held), and the whole sequence allocates at most one
    array. *)
Theorem build_all_one_output (calls : list (list ndarray)) :
  forall (self : SpecializedStencil.t) (m : memory),
    (forall a b,
        In (Ok a) (fst (fst (build_all self calls m))) ->
        In (Ok b) (fst (fst (build_all self calls m))) -> a = b)
    /\ (forall o a,
           output self = Some o ->
           In (Ok a) (fst (fst (build_all self calls m))) -> a = o)
    /\ (next_addr m <= next_addr (snd (build_all self calls m))
        <= S (next_addr m))%nat
    /\ (output self <> None ->
        snd (build_all self calls m) = m).
Proof.
  induction calls as [|args calls IH]; intros self m.
  - simpl. repeat split; try contradiction; lia.
  - cbn [build_all]. pose proof (build_step self args m) as Hstep.
    destruct (build self args m) as [[r self1] m1] eqn:Hb.
    simpl fst in Hstep. simpl snd in Hstep.
    destruct (IH self1 m1) as [Hsame [Hheld [Hmem Hkeep]]].
    destruct (build_all self1 calls m1) as [[rs self2] m2] eqn:Hrest.
    simpl fst in *. simpl snd in *.
    destruct (output self) as [o|] eqn:Ho.
    + destruct Hstep as [Hr [Hout1 ->]].
      assert (Hall : forall a, In (Ok a) (r :: rs) -> a = o).
      { intros a [Ha|Ha].
        - destruct Hr as [Hr|[e Hr]]; congruence.
        - now apply (Hheld o a Hout1). }
      split; [|split; [|split]].
      * intros a b Ha Hb'. rewrite (Hall a Ha), (Hall b Hb'). reflexivity.
      * intros o' a Ho' Ha. injection Ho' as <-. now apply Hall.
      * rewrite (Hkeep ltac:(congruence)). lia.
      * intros _. apply Hkeep. congruence.
    + split; [|split; [|split]]; try discriminate; try congruence.
      * destruct Hstep as [[a0 [Hr [Hout1 Hnext]]]|[[e Hr] [Hout1 ->]]].
        -- assert (Hall : forall a, In (Ok a) (r :: rs) -> a = a0).
           { intros a [Ha|Ha]; [congruence|now apply (Hheld a0 a Hout1)]. }
           intros a b Ha Hb'. rewrite (Hall a Ha), (Hall b Hb'). reflexivity.
        -- intros a b [Ha|Ha] [Hb'|Hb']; try congruence. now apply Hsame.
      * destruct Hstep as [[a0 [Hr [Hout1 Hnext]]]|[[e Hr] [Hout1 ->]]].
        -- rewrite (Hkeep ltac:(congruence)). lia.
        -- exact Hmem.
Qed.

End BuildSequenceFacts.
